(** * binance-public-data: checksum verifier and kline downloader

    A shallow embedding of [python/verify-data.py] and
    [python/download-kline.py], with the properties of the concurrent
    download / verification engine stated over it.

    Conventions of the embedding.
    - Python [str] values are [string]s; a character is a code point of the
      one-byte range.  [int]s are [Z].
    - A Python function that can raise returns a [result]; the ones whose
      [try/except Exception] turns every failure into [None] return an
      [option].
    - The file system, the hash function and the helpers imported from
      [utility] and [enums] are parameters of the model, and so is the
      order in which Python goes through a set.
    - A path is the text [pathlib] prints for it, in its normal form.
    - Text written to standard output is not modelled. *)

From Stdlib Require Import ZArith Lia List Bool Ascii.
From Stdlib Require String.
From stdpp Require Import base gmap strings list sorting pretty.

Local Open Scope Z_scope.

(** ** Python values shared by both scripts *)

(** Outcome of a call that may raise: the value returned, or the exception. *)
Inductive result (A : Type) : Type :=
| Ret (a : A)
| Exc (e : string).
Arguments Ret {A} a.
Arguments Exc {A} e.

Module PyStr.

(** [str.isspace] on one character, for code points below 256. *)
Definition isspace (c : ascii) : bool :=
  let n := N_of_ascii c in
  ((9 <=? n) && (n <=? 13) || (28 <=? n) && (n <=? 32)
   || (n =? 133) || (n =? 160))%N.

(** [str.lower] on one character, for code points below 256. *)
Definition lower_char (c : ascii) : ascii :=
  let n := N_of_ascii c in
  if ((65 <=? n) && (n <=? 90)
      || (192 <=? n) && (n <=? 222) && negb (n =? 215))%N
  then ascii_of_N (n + 32) else c.

(** [str.upper] on one character, for the code points below 256 whose
    upper case is one character below 256: all but 181, 223 and 255, which
    [str.upper] takes out of that range and which the model leaves as they
    are.  The tickers the downloader formats are ASCII. *)
Definition upper_char (c : ascii) : ascii :=
  let n := N_of_ascii c in
  if ((97 <=? n) && (n <=? 122)
      || (224 <=? n) && (n <=? 254) && negb (n =? 247))%N
  then ascii_of_N (n - 32) else c.

Fixpoint map_chars (f : ascii -> ascii) (s : string) : string :=
  match s with
  | EmptyString => EmptyString
  | String c r => String (f c) (map_chars f r)
  end.

Definition lower : string -> string := map_chars lower_char.
Definition upper : string -> string := map_chars upper_char.

(** [bool(s)]: a string is true when it is not empty. *)
Definition truthy (s : string) : bool :=
  match s with EmptyString => false | String _ _ => true end.

(** [s.startswith(c)] and [s.endswith(c)] for a one-character [c]. *)
Definition startswith (c : ascii) (s : string) : bool :=
  match s with
  | EmptyString => false
  | String d _ => Ascii.eqb d c
  end.

Fixpoint endswith (c : ascii) (s : string) : bool :=
  match s with
  | EmptyString => false
  | String d EmptyString => Ascii.eqb d c
  | String _ r => endswith c r
  end.

(** Every character of [s] is white space; the empty string is blank. *)
Fixpoint blank (s : string) : bool :=
  match s with
  | EmptyString => true
  | String c r => isspace c && blank r
  end.

(** No character of [s] is white space. *)
Fixpoint no_space (s : string) : bool :=
  match s with
  | EmptyString => true
  | String c r => negb (isspace c) && no_space r
  end.

(** [s] is empty or starts with white space. *)
Definition ends_word (s : string) : bool :=
  match s with
  | EmptyString => true
  | String c _ => isspace c
  end.

(** The leading run of characters other than white space, and what follows
    that run. *)
Fixpoint take_word (s : string) : string :=
  match s with
  | EmptyString => EmptyString
  | String c r => if isspace c then EmptyString else String c (take_word r)
  end.

Fixpoint drop_word (s : string) : string :=
  match s with
  | EmptyString => EmptyString
  | String c r => if isspace c then s else drop_word r
  end.

(** [s.lstrip()], [s.rstrip()] and [s.strip()]. *)
Fixpoint lstrip (s : string) : string :=
  match s with
  | EmptyString => EmptyString
  | String c r => if isspace c then lstrip r else s
  end.

Fixpoint rstrip (s : string) : string :=
  match s with
  | EmptyString => EmptyString
  | String c r =>
      let r' := rstrip r in
      if isspace c && negb (truthy r') then EmptyString else String c r'
  end.

Definition strip (s : string) : string := rstrip (lstrip s).

(** [s.split()]: the maximal runs of non-space characters.  [word] is the
    run being read, if any. *)
Fixpoint split_from (word : option string) (s : string) : list string :=
  match s with
  | EmptyString =>
      match word with Some w => [w] | None => [] end
  | String c r =>
      if isspace c then
        match word with
        | Some w => w :: split_from None r
        | None => split_from None r
        end
      else
        split_from (Some (default EmptyString word +:+ String c EmptyString)) r
  end.

Definition split (s : string) : list string := split_from None s.

(** Index of the last occurrence of [ch], as [str.rfind]. *)
Fixpoint rfind (ch : ascii) (s : string) : option nat :=
  match s with
  | EmptyString => None
  | String c r =>
      match rfind ch r with
      | Some i => Some (S i)
      | None => if Ascii.eqb c ch then Some 0%nat else None
      end
  end.

(** The first line a text-mode file object hands out: [readline] reads
    through the first line end, and universal newlines turn a carriage
    return into a line feed. *)
Fixpoint readline (s : string) : string :=
  match s with
  | EmptyString => EmptyString
  | String c r =>
      if Ascii.eqb c "010" || Ascii.eqb c "013"
      then String "010" EmptyString
      else String c (readline r)
  end.

End PyStr.

(** [pathlib.PurePosixPath]: the parts of a path the verifier uses.
    Paths are the texts [str(Path(p))] prints.  [pathlib] brings a text to
    its normal form before it takes it apart: it drops empty components,
    components that are a single dot and a trailing slash.  The functions
    below take a text apart as it stands, so they are those of [pathlib] on
    texts in normal form, [normal]; the paths a [glob] returns are. *)
Module PyPath.

(** The components of a path text, between its slashes; [cur] is the
    component being read. *)
Fixpoint components (cur p : string) : list string :=
  match p with
  | EmptyString => [cur]
  | String c r =>
      if Ascii.eqb c "/" then cur :: components EmptyString r
      else components (cur +:+ String c EmptyString) r
  end.

(** A component [pathlib] keeps. *)
Definition kept (c : string) : bool :=
  PyStr.truthy c && negb (String.eqb c ".").

(** [str(Path(p)) == p] for a path with a final component: after one
    leading slash, or two, every component is kept and there is at least
    one. *)
Definition normal (p : string) : bool :=
  let body :=
    match components EmptyString p with
    | EmptyString :: EmptyString :: rest => rest
    | EmptyString :: rest => rest
    | rest => rest
    end in
  match body with
  | [] => false
  | _ => forallb kept body
  end.

(** [p.name]: the final component. *)
Definition name (p : string) : string :=
  match PyStr.rfind "/" p with
  | Some i => String.substring (S i) (String.length p - S i) p
  | None => p
  end.

(** [p.suffix]: the last dot of the name and what follows it, unless that
    dot starts or ends the name. *)
Definition suffix (p : string) : string :=
  let n := name p in
  match PyStr.rfind "." n with
  | Some i =>
      if ((0 <? i) && (i <? String.length n - 1))%nat
      then String.substring i (String.length n - i) n
      else EmptyString
  | None => EmptyString
  end.

(** [p.with_suffix('')]: the path without its suffix. *)
Definition with_suffix_empty (p : string) : string :=
  String.substring 0 (String.length p - String.length (suffix p)) p.

End PyPath.

(** ** verify-data.py *)

Module Verify.

(** What a path names. *)
Inductive Kind : Type :=
| regular
| directory
| special.

(** The machine the verifier runs on.  [fs_kind p] is [None] when nothing
    is at [p]; [fs_glob d] lists the paths [Path(d).glob("**/*.CHECKSUM")]
    yields; [fs_read_text p] is the decoded text of [p], [None] when opening
    or decoding raises; [fs_read_bytes p] is the content of [p], [None] when
    opening or reading raises; [cpu_count] is what
    [multiprocessing.cpu_count()] returns. *)
Class Host : Type := {
  fs_kind : string -> option Kind;
  fs_glob : string -> list string;
  fs_read_text : string -> option string;
  fs_read_bytes : string -> option (list Byte.byte);
  cpu_count : Z
}.

(** [hashlib.sha256]: a hash object, its [update] and its [hexdigest]. *)
Class Hashlib : Type := {
  sha_state : Type;
  sha256_new : sha_state;
  sha256_update : sha_state -> list Byte.byte -> sha_state;
  sha256_hexdigest : sha_state -> string
}.

(** [Path.exists], [Path.is_file] and [Path.is_dir]. *)
Definition fs_exists `{Host} (p : string) : bool :=
  match fs_kind p with
  | Some _ => true
  | None => false
  end.

Definition fs_is_file `{Host} (p : string) : bool :=
  match fs_kind p with
  | Some regular => true
  | _ => false
  end.

Definition fs_is_dir `{Host} (p : string) : bool :=
  match fs_kind p with
  | Some directory => true
  | _ => false
  end.

(** The [status] entry of a result dictionary. *)
Inductive Status : Type :=
| unknown
| missing
| invalid_checksum
| read_error
| verified
| corrupted.

Global Instance Status_eq_dec : EqDecision Status.
Proof. solve_decision. Defined.

(** The dictionary [verify_single_file_worker] returns. *)
Record VerificationResult : Type := {
  file : string;
  path : string;
  status : Status;
  expected : string;
  actual : string
}.

Definition set_status (r : VerificationResult) (s : Status) :=
  {| file := file r; path := path r; status := s;
     expected := expected r; actual := actual r |}.

Definition set_hashes (r : VerificationResult) (e a : string) :=
  {| file := file r; path := path r; status := status r;
     expected := e; actual := a |}.

(** The counters of a directory pass. *)
Record Counts : Type := {
  n_verified : Z;
  n_failed : Z;
  n_missing : Z
}.

Definition no_counts : Counts :=
  {| n_verified := 0; n_failed := 0; n_missing := 0 |}.
Definition add_verified (c : Counts) : Counts :=
  {| n_verified := n_verified c + 1; n_failed := n_failed c;
     n_missing := n_missing c |}.
Definition add_failed (c : Counts) : Counts :=
  {| n_verified := n_verified c; n_failed := n_failed c + 1;
     n_missing := n_missing c |}.
Definition add_missing (c : Counts) : Counts :=
  {| n_verified := n_verified c; n_failed := n_failed c;
     n_missing := n_missing c + 1 |}.

(** [failed == 0 and missing == 0] *)
Definition passed (c : Counts) : bool :=
  (n_failed c =? 0) && (n_missing c =? 0).

(** [not h] for a value that is a string or [None]. *)
Definition falsy (h : option string) : bool :=
  match h with
  | Some s => negb (PyStr.truthy s)
  | None => true
  end.


Section Model.

Context `{Hashlib} `{Host}.

Definition chunk_size : nat := 4096.

(** [for chunk in iter(lambda: f.read(4096), b""): h.update(chunk)];
    [fuel] bounds the number of reads, one more than the bytes left is
    enough. *)
Fixpoint update_chunks (fuel : nat) (h : sha_state)
    (data : list Byte.byte) : sha_state :=
  match fuel with
  | O => h
  | S k =>
      match take chunk_size data with
      | [] => h
      | chunk => update_chunks k (sha256_update h chunk)
                               (drop chunk_size data)
      end
  end.

Definition calculate_sha256 (file_path : string) : option string :=
  match fs_read_bytes file_path with
  | Some data =>
      Some (sha256_hexdigest
              (update_chunks (S (length data)) sha256_new data))
  | None => None
  end.

(** [line.split()[0] if line else None]; an [IndexError] would end in
    the [except] branch, which returns [None]. *)
Definition first_token (line : string) : option string :=
  if PyStr.truthy line then head (PyStr.split line) else None.

Definition read_checksum_file (checksum_path : string) : option string :=
  match fs_read_text checksum_path with
  | Some text => first_token (PyStr.strip (PyStr.readline text))
  | None => None
  end.

Definition same_digest (e a : string) : bool :=
  String.eqb (PyStr.lower e) (PyStr.lower a).

Definition verify_single_file_worker (checksum_file_path : string)
    : VerificationResult :=
  let checksum_file := checksum_file_path in
  let data_file := PyPath.with_suffix_empty checksum_file in
  let result :=
    {| file := PyPath.name data_file; path := data_file;
       status := unknown;
       expected := EmptyString; actual := EmptyString |} in
  if negb (fs_exists data_file) then set_status result missing
  else
    let expected_hash := read_checksum_file checksum_file in
    if falsy expected_hash then set_status result invalid_checksum
    else
      let actual_hash := calculate_sha256 data_file in
      if falsy actual_hash then set_status result read_error
      else
        let e := default EmptyString expected_hash in
        let a := default EmptyString actual_hash in
        let result := set_hashes result e a in
        if same_digest e a then set_status result verified
        else set_status result corrupted.

(** The loop over [results] in [verify_directory_parallel]. *)
Definition tally_parallel (c : Counts) (r : VerificationResult) : Counts :=
  match status r with
  | verified => add_verified c
  | corrupted => add_failed c
  | missing => add_missing c
  | _ => c
  end.

(** [Pool(processes=n)] raises [ValueError] below one process. *)
Definition pool_processes (workers : option Z) (n_files : nat) : Z :=
  match workers with
  | Some w => w
  | None => Z.min cpu_count (Z.of_nat n_files)
  end.

Definition verify_directory_parallel (data_dir : string)
    (workers : option Z) : result bool :=
  if negb (fs_exists data_dir) then Ret false
  else
    let checksum_files := fs_glob data_dir in
    match checksum_files with
    | [] => Ret false
    | _ =>
        if pool_processes workers (length checksum_files) <? 1
        then Exc "ValueError"
        else
          let results := map verify_single_file_worker checksum_files in
          Ret (passed (fold_left tally_parallel results no_counts))
    end.

(** One turn of the loop in [verify_directory_sequential]. *)
Definition tally_sequential (c : Counts) (checksum_file : string)
    : Counts :=
  let data_file := PyPath.with_suffix_empty checksum_file in
  if negb (fs_exists data_file) then add_missing c
  else
    let expected_hash := read_checksum_file checksum_file in
    if falsy expected_hash then add_failed c
    else
      let actual_hash := calculate_sha256 data_file in
      if falsy actual_hash then add_failed c
      else if same_digest (default EmptyString expected_hash)
                          (default EmptyString actual_hash)
           then add_verified c
           else add_failed c.

Definition verify_directory_sequential (data_dir : string) : bool :=
  if negb (fs_exists data_dir) then false
  else
    let checksum_files := fs_glob data_dir in
    match checksum_files with
    | [] => false
    | _ => passed (fold_left tally_sequential checksum_files no_counts)
    end.

Definition verify_single_file (file_path : string) : bool :=
  let data_file := file_path in
  let checksum_file := data_file +:+ ".CHECKSUM" in
  if negb (fs_exists data_file) then false
  else if negb (fs_exists checksum_file) then false
  else
    let expected_hash := read_checksum_file checksum_file in
    let actual_hash := calculate_sha256 data_file in
    negb (falsy expected_hash) && negb (falsy actual_hash)
    && same_digest (default EmptyString expected_hash)
                   (default EmptyString actual_hash).

(** [sys.exit(0 if success else 1)]; an exception that reaches the top
    level ends the process with status 1 as well. *)
Definition exit_status (success : result bool) : Z :=
  match success with
  | Ret true => 0
  | _ => 1
  end.

(** [main], from the parsed arguments to the exit status. *)
Definition main (target : string) (workers : option Z)
    (sequential : bool) : Z :=
  if fs_is_file target then exit_status (Ret (verify_single_file target))
  else if fs_is_dir target then
    if sequential
    then exit_status (Ret (verify_directory_sequential target))
    else exit_status (verify_directory_parallel target workers)
  else 1.

(** *** The classes of the specification

    The five outcomes of section 4.6, stated on the files and not on the
    worker's code. *)

(** [e] is the first white-space delimited token of [line]. *)
Definition first_word (line e : string) : Prop :=
  exists pre post,
    line = pre +:+ e +:+ post
    /\ PyStr.blank pre = true
    /\ PyStr.truthy e = true /\ PyStr.no_space e = true
    /\ PyStr.ends_word post = true.

(** The sidecar cannot be read, or its first line holds no token. *)
Definition sidecar_unusable (p : string) : Prop :=
  fs_read_text p = None
  \/ exists text, fs_read_text p = Some text
                  /\ PyStr.blank (PyStr.readline text) = true.

(** The expected digest the sidecar holds. *)
Definition sidecar_digest (p e : string) : Prop :=
  exists text, fs_read_text p = Some text
               /\ first_word (PyStr.readline text) e.

(** The digest of the whole content of the data file. *)
Definition file_digest (p a : string) : Prop :=
  exists data, fs_read_bytes p = Some data
               /\ a = sha256_hexdigest (sha256_update sha256_new data).

(** The statuses that count as failed for the exit code. *)
Definition is_failed (s : Status) : bool :=
  match s with
  | corrupted | invalid_checksum | read_error => true
  | _ => false
  end.

Definition is_missing (s : Status) : bool :=
  match s with
  | missing => true
  | _ => false
  end.

(** The parallel loop leaves invalid_checksum and read_error uncounted. *)
Definition counted_parallel (s : Status) : bool :=
  match s with
  | corrupted | missing => true
  | _ => false
  end.

(** The sidecar neither failed nor lacks its data file. *)
Definition sidecar_ok (p : string) : bool :=
  let s := status (verify_single_file_worker p) in
  negb (is_failed s) && negb (is_missing s).

(** The counting of the specification: [failed] gathers corrupted,
    invalid_checksum and read_error. *)
Definition tally_spec (c : Counts) (s : Status) : Counts :=
  match s with
  | verified => add_verified c
  | corrupted | invalid_checksum | read_error => add_failed c
  | missing => add_missing c
  | unknown => c
  end.

End Model.

(** *** A sample tree

    The directory [data] holds one sidecar of each class, [clean] one
    verified sidecar, [inbox] one sidecar with no content next to its data
    file, and [empty] nothing. *)

Definition nl : string := String "010" EmptyString.

Definition lookup_path {A} (table : list (string * A)) (p : string)
    : option A :=
  snd <$> find (fun entry => String.eqb (fst entry) p) table.

Definition sample_host : Host := {|
  fs_kind := lookup_path
    [("data", directory); ("clean", directory); ("inbox", directory);
     ("empty", directory);
     ("data/a.zip", regular); ("data/a.zip.CHECKSUM", regular);
     ("data/b.zip", regular); ("data/b.zip.CHECKSUM", regular);
     ("data/c.zip.CHECKSUM", regular);
     ("data/d.zip", regular); ("data/d.zip.CHECKSUM", regular);
     ("data/e.zip", regular); ("data/e.zip.CHECKSUM", regular);
     ("clean/a.zip", regular); ("clean/a.zip.CHECKSUM", regular);
     ("inbox/x.zip", regular); ("inbox/x.zip.CHECKSUM", regular)];
  fs_glob := fun d => default [] (lookup_path
    [("data", ["data/a.zip.CHECKSUM"; "data/b.zip.CHECKSUM";
               "data/c.zip.CHECKSUM"; "data/d.zip.CHECKSUM";
               "data/e.zip.CHECKSUM"]);
     ("clean", ["clean/a.zip.CHECKSUM"]);
     ("inbox", ["inbox/x.zip.CHECKSUM"])] d);
  fs_read_text := lookup_path
    [("data/a.zip.CHECKSUM", "ABC123  a.zip" +:+ nl);
     ("data/b.zip.CHECKSUM", "abc123  b.zip" +:+ nl);
     ("data/c.zip.CHECKSUM", "abc123  c.zip" +:+ nl);
     ("data/d.zip.CHECKSUM", nl +:+ "abc123  d.zip" +:+ nl);
     ("data/e.zip.CHECKSUM", "abc123  e.zip");
     ("clean/a.zip.CHECKSUM", "abc123  a.zip" +:+ nl);
     ("inbox/x.zip.CHECKSUM", "")];
  fs_read_bytes := lookup_path
    [("data/a.zip", []); ("data/b.zip", [Byte.x50; Byte.x4b]);
     ("data/d.zip", []); ("clean/a.zip", []); ("inbox/x.zip", [])];
  cpu_count := 4
|}.

(** A stand-in for the hash: the state is the content fed so far. *)
Definition sample_hexdigest (fed : list Byte.byte) : string :=
  match fed with
  | [] => "abc123"
  | _ => "def456"
  end.

Definition sample_hashlib : Hashlib := {|
  sha_state := list Byte.byte;
  sha256_new := [];
  sha256_update := app;
  sha256_hexdigest := sample_hexdigest
|}.

Definition sample_worker : string -> VerificationResult :=
  @verify_single_file_worker sample_hashlib sample_host.

Definition sample_main : string -> option Z -> bool -> Z :=
  @main sample_hashlib sample_host.

(** The statuses the parallel loop does not count. *)
Definition uncounted (s : Status) : bool :=
  match s with
  | invalid_checksum | read_error => true
  | _ => false
  end.

(** [total = verified + failed + missing], the total of the summary. *)
Definition sum_counts (c : Counts) : Z :=
  n_verified c + n_failed c + n_missing c.

(** A machine with one file of 5000 zero bytes, more than one chunk. *)
Definition big_host : Host := {|
  fs_kind := lookup_path [("big.bin", regular)];
  fs_glob := fun _ => [];
  fs_read_text := fun _ => None;
  fs_read_bytes := lookup_path [("big.bin", replicate 5000 Byte.x00)];
  cpu_count := 1
|}.

(** A stand-in for the hash whose digest is the number of bytes fed. *)
Definition counting_hashlib : Hashlib := {|
  sha_state := N;
  sha256_new := 0%N;
  sha256_update := fun h chunk => (h + N.of_nat (length chunk))%N;
  sha256_hexdigest := fun h => pretty h
|}.

End Verify.

(** ** download-kline.py *)

Module Download.

(** [datetime.date], compared field by field. *)
Record Date : Type := {
  year : Z;
  month : Z;
  day : Z
}.

Definition date_le (a b : Date) : bool :=
  (year a <? year b)
  || (year a =? year b)
     && ((month a <? month b)
         || (month a =? month b) && (day a <=? day b)).

(** The attributes of a [DownloadTracker]; its lock makes each [mark_]
    method one atomic step. *)
Record DownloadTracker : Type := {
  completed : Z;
  failed : Z;
  skipped : Z;
  total : Z;
  failed_files : list string
}.

(** [DownloadTracker(total_files)] *)
Definition new_tracker (total_files : Z) : DownloadTracker :=
  {| completed := 0; failed := 0; skipped := 0; total := total_files;
     failed_files := [] |}.

Definition processed (t : DownloadTracker) : Z :=
  completed t + failed t + skipped t.

(** What the downloader sees of its surroundings: the size of what is at
    each path, the working directory, and the calls of the transfer
    primitive so far (its path and file name arguments). *)
Record World : Type := {
  files : gmap string Z;
  cwd : string;
  transfers : list (string * string)
}.

(** The tuple [build_download_queue] appends for one file. *)
Record download_info : Type := {
  trading_type : string;
  symbol : string;
  interval : string;
  date : string;
  start_date : Date;
  end_date : Date;
  folder : option string;
  checksum : Z;
  date_range : option string
}.

(** The state a worker acts on: the shared tracker and the surroundings. *)
Record State : Type := {
  tracker : DownloadTracker;
  world : World
}.

(** A computation on that state that returns or raises. *)
Definition M (A : Type) : Type := State -> State * result A.

Definition ret {A} (a : A) : M A := fun s => (s, Ret a).

Definition raise {A} (e : string) : M A := fun s => (s, Exc e).

Definition bind {A B} (m : M A) (k : A -> M B) : M B :=
  fun s =>
    match m s with
    | (s', Ret a) => k a s'
    | (s', Exc e) => (s', Exc e)
    end.

(** [try: body  except Exception as e: handler] *)
Definition try_except {A} (body : M A) (handler : string -> M A) : M A :=
  fun s =>
    match body s with
    | (s', Ret a) => (s', Ret a)
    | (s', Exc e) => handler e s'
    end.

Definition lift {A} (r : result A) : M A := fun s => (s, r).

Definition get_tracker : M DownloadTracker := fun s => (s, Ret (tracker s)).

Definition put_tracker (t : DownloadTracker) : M unit :=
  fun s => ({| tracker := t; world := world s |}, Ret tt).

Definition get_world : M World := fun s => (s, Ret (world s)).

Definition put_world (w : World) : M unit :=
  fun s => ({| tracker := tracker s; world := w |}, Ret tt).

Declare Scope py_scope.
Delimit Scope py_scope with py.
Notation "'let!' x ':=' m 'in' k" := (bind m (fun x => k))
  (at level 10, x name, m at level 100, k at level 200) : py_scope.
Notation "'do!' m 'in' k" := (bind m (fun _ => k))
  (at level 10, m at level 100, k at level 200) : py_scope.
Local Open Scope py_scope.

(** [DownloadTracker._print_progress]: the progress line is computed when
    ten more files are done or all are; the division then raises on a
    tracker whose total is zero. *)
Definition _print_progress : M unit :=
  let! t := get_tracker in
  if (processed t mod 10 =? 0) || (processed t =? total t) then
    if total t =? 0 then raise "ZeroDivisionError" else ret tt
  else ret tt.

(** [self.completed += 1], [self.failed += 1], [self.skipped += 1] and
    [self.failed_files.append(name)]. *)
Definition add_completed (t : DownloadTracker) : DownloadTracker :=
  {| completed := completed t + 1; failed := failed t;
     skipped := skipped t; total := total t;
     failed_files := failed_files t |}.

Definition add_failed (t : DownloadTracker) : DownloadTracker :=
  {| completed := completed t; failed := failed t + 1;
     skipped := skipped t; total := total t;
     failed_files := failed_files t |}.

Definition add_skipped (t : DownloadTracker) : DownloadTracker :=
  {| completed := completed t; failed := failed t;
     skipped := skipped t + 1; total := total t;
     failed_files := failed_files t |}.

Definition add_failed_file (name : string) (t : DownloadTracker)
    : DownloadTracker :=
  {| completed := completed t; failed := failed t;
     skipped := skipped t; total := total t;
     failed_files := failed_files t ++ [name] |}.

Definition mark_completed (file_name : string) : M unit :=
  let! t := get_tracker in
  do! put_tracker (add_completed t) in
  _print_progress.

Definition mark_failed (file_name : string) : M unit :=
  let! t := get_tracker in
  do! put_tracker (add_failed t) in
  _print_progress.

Definition mark_skipped (file_name : string) : M unit :=
  let! t := get_tracker in
  do! put_tracker (add_skipped t) in
  _print_progress.

Definition append_failed_file (name : string) : M unit :=
  let! t := get_tracker in
  put_tracker (add_failed_file name t).

(** The surroundings after a call of the transfer primitive that left the
    files as [files']. *)
Definition logged (w : World) (files' : gmap string Z)
    (path file_name : string) : World :=
  {| files := files'; cwd := cwd w;
     transfers := transfers w ++ [(path, file_name)] |}.

(** [os.path.exists] and [os.path.getsize] read the sizes. *)
Definition file_complete (w : World) (file_path : string) : bool :=
  match files w !! file_path with
  | Some file_size => 0 <? file_size
  | None => false
  end.

Definition is_file_complete (file_path : string) : M bool :=
  let! w := get_world in
  ret (file_complete w file_path).

(** [os.path.join] on POSIX paths. *)
Definition join2 (a b : string) : string :=
  if PyStr.startswith "/" b then b
  else if negb (PyStr.truthy a) || PyStr.endswith "/" a then a +:+ b
  else a +:+ "/" +:+ b.

Definition os_path_join (a b c : string) : string := join2 (join2 a b) c.

(** [folder or os.getcwd()] *)
Definition folder_or_cwd (folder : option string) (w : World) : string :=
  match folder with
  | Some f => if PyStr.truthy f then f else cwd w
  | None => cwd w
  end.

(** [f"{symbol}-{interval}-{date}"] *)
Definition file_id (symbol interval date : string) : string :=
  symbol +:+ "-" +:+ interval +:+ "-" +:+ date.

(** ["{}-{}-{}.zip".format(symbol.upper(), interval, date)] and the name of
    its sidecar. *)
Definition zip_name (symbol interval date : string) : string :=
  PyStr.upper symbol +:+ "-" +:+ interval +:+ "-" +:+ date +:+ ".zip".

Definition checksum_name (symbol interval date : string) : string :=
  PyStr.upper symbol +:+ "-" +:+ interval +:+ "-" +:+ date
  +:+ ".zip.CHECKSUM".


(** What the script imports from [utility] and [enums].  [get_path] is the
    path resolver of section 4.1, a pure function of the trading type, the
    kind of data, the granularity, the symbol and the interval;
    [convert_to_date_object] parses a day string, or raises; [download_file]
    is the transfer primitive: given the path, the file name, the date range
    and the folder it changes the files in any way and returns or raises,
    and what it does may depend on the surroundings and on the calls made
    before. *)
Class Utility : Type := {
  get_path : string -> string -> string -> string -> string -> string;
  convert_to_date_object : string -> result Date;
  download_file :
    string -> string -> option string -> option string ->
    World -> gmap string Z * result unit;
  START_DATE : Date;
  END_DATE : Date;
  DAILY_INTERVALS : list string
}.

(** [list(s)] for a set [s] of strings.  Python goes through a set in the
    order of its hash table, which is not the order of insertion and differs
    from one run to the next: the model leaves the order open and keeps
    what every order has, the elements of the set, each of them once. *)
Class SetOrder : Type := {
  list_of_set : gset string -> list string;
  list_of_set_elements :
    forall X : gset string, list_of_set X ≡ₚ elements X
}.

Section Model.

Context `{Utility} `{SetOrder}.

(** A call of the transfer primitive, entered in the log of calls. *)
Definition call_download_file (path file_name : string)
    (date_range folder : option string) : M unit :=
  let! w := get_world in
  let '(files', outcome) := download_file path file_name date_range folder
                                          w in
  do! put_world (logged w files' path file_name) in
  lift outcome.

(** [current_date >= start_date and current_date <= end_date] *)
Definition in_range (info : download_info) (current_date : Date) : bool :=
  date_le (start_date info) current_date
  && date_le current_date (end_date info).

(** The path of the data file of a task, [full_path] in the worker. *)
Definition full_path (info : download_info) (w : World) : string :=
  os_path_join (folder_or_cwd (folder info) w)
    (get_path (trading_type info) "klines" "daily" (symbol info)
       (interval info))
    (zip_name (symbol info) (interval info) (date info)).

(** The path of its sidecar, [checksum_full_path] in the worker. *)
Definition checksum_full_path (info : download_info) (w : World) : string :=
  os_path_join (folder_or_cwd (folder info) w)
    (get_path (trading_type info) "klines" "daily" (symbol info)
       (interval info))
    (checksum_name (symbol info) (interval info) (date info)).

(** The identifier entered in [failed_files]. *)
Definition task_id (info : download_info) : string :=
  file_id (symbol info) (interval info) (date info).

(** The [try] block of the worker. *)
Definition try_download (info : download_info) : M bool :=
  let path := get_path (trading_type info) "klines" "daily" (symbol info)
                (interval info) in
  let file_name := zip_name (symbol info) (interval info) (date info) in
  let! w := get_world in
  let! complete := is_file_complete (full_path info w) in
  if complete then
    do! mark_skipped file_name in
    ret true
  else
    do! call_download_file path file_name (date_range info) (folder info) in
    do! (if checksum info =? 1 then
           let checksum_path :=
             get_path (trading_type info) "klines" "daily" (symbol info)
               (interval info) in
           let checksum_file_name :=
             checksum_name (symbol info) (interval info) (date info) in
           let! w' := get_world in
           let! have := is_file_complete (checksum_full_path info w') in
           if negb have then
             call_download_file checksum_path checksum_file_name
               (date_range info) (folder info)
           else ret tt
         else ret tt) in
    do! mark_completed file_name in
    ret true.

(** The [except] block of the worker. *)
Definition record_failure (info : download_info) (e : string) : M bool :=
  do! append_failed_file (task_id info) in
  do! mark_failed (task_id info) in
  ret false.

Definition download_single_kline_file (info : download_info) : M bool :=
  let! current_date := lift (convert_to_date_object (date info)) in
  if negb (in_range info current_date) then ret true
  else try_except (try_download info) (record_failure info).

(** The tuple appended for one symbol, interval and date. *)
Definition task_of (trading_type : string) (start_date end_date : Date)
    (folder : option string) (checksum : Z) (date_range : option string)
    (k : string * string * string) : download_info :=
  {| Download.trading_type := trading_type; symbol := k.1.1;
     interval := k.1.2; date := k.2;
     Download.start_date := start_date; Download.end_date := end_date;
     Download.folder := folder; Download.checksum := checksum;
     Download.date_range := date_range |}.

(** One turn of the innermost loop of [build_download_queue]: the queue and
    the set of identifiers seen so far. *)
Definition queue_step (trading_type symbol interval : string)
    (start_date end_date : Date) (folder : option string) (checksum : Z)
    (date_range : option string)
    (acc : list download_info * gset string) (date : string)
    : list download_info * gset string :=
  let '(download_queue, seen_files) := acc in
  let id := file_id symbol interval date in
  if decide (id ∈ seen_files) then acc
  else
    let download_info :=
      task_of trading_type start_date end_date folder checksum date_range
        (symbol, interval, date) in
    (download_queue ++ [download_info], {[id]} ∪ seen_files).

Definition build_download_queue (trading_type : string)
    (symbols intervals dates : list string) (start_date end_date : Date)
    (folder : option string) (checksum : Z) (date_range : option string)
    : list download_info :=
  fst (fold_left
         (fun acc symbol =>
            fold_left
              (fun acc interval =>
                 fold_left
                   (queue_step trading_type symbol interval start_date
                      end_date folder checksum date_range)
                   dates acc)
              intervals acc)
         symbols ([], ∅)).

(** The futures of the executor, awaited in the order of the queue; an
    exception of a worker is caught by the loop that awaits them. *)
Fixpoint run_queue (download_queue : list download_info) (s : State)
    : State :=
  match download_queue with
  | [] => s
  | info :: rest => run_queue rest (fst (download_single_kline_file info s))
  end.

(** The workers run in any order: one step resolves one pending task.  The
    run of a worker is taken as one step: the methods of the tracker are
    atomic under its lock and a worker calls at most one of the [mark_]
    methods; how the transfers of several workers interleave is left to the
    transfer primitive, which may change the files in any way.  The append
    to [failed_files] is made outside the lock, before [mark_failed]: the
    states between the two are not states of this relation, so what holds
    of every state here holds of the counters at any time and of
    [failed_files] once the workers are done. *)
Inductive step :
    list download_info * State -> list download_info * State -> Prop :=
| step_task before info after s :
    step (before ++ info :: after, s)
         (before ++ after, fst (download_single_kline_file info s)).

(** [not s] for an argument that is a string or [None]. *)
Definition absent (s : option string) : bool :=
  match s with
  | Some x => negb (PyStr.truthy x)
  | None => true
  end.

Definition date_or_default (s : option string) (dflt : Date) : result Date :=
  match s with
  | Some x => if PyStr.truthy x then convert_to_date_object x else Ret dflt
  | None => Ret dflt
  end.

(** [list(set(intervals) & set(DAILY_INTERVALS))]: the intervals a
    download keeps, in the order it goes through them. *)
Definition valid_intervals (intervals : list string) : list string :=
  list_of_set ((list_to_set intervals : gset string)
               ∩ list_to_set DAILY_INTERVALS).

(** The queue [download_daily_klines] builds from its arguments. *)
Definition daily_queue (trading_type : string) (symbols intervals
    dates : list string) (start_date end_date folder : option string)
    (checksum : Z) : result (list download_info) :=
  let date_range :=
    if negb (absent start_date) && negb (absent end_date)
    then Some (default EmptyString start_date +:+ " "
               +:+ default EmptyString end_date)
    else None in
  match date_or_default start_date START_DATE with
  | Exc e => Exc e
  | Ret start =>
      match date_or_default end_date END_DATE with
      | Exc e => Exc e
      | Ret stop =>
          let intervals := valid_intervals intervals in
          Ret (build_download_queue trading_type symbols intervals dates
                 start stop folder checksum date_range)
      end
  end.

(** [download_daily_klines], from its arguments and the surroundings to the
    surroundings it leaves and the tracker it prints in its summary; [None]
    when there are no files to download.  [ThreadPoolExecutor] raises
    [ValueError] unless it is given at least one worker. *)
Definition download_daily_klines (trading_type : string)
    (symbols : list string) (num_symbols : Z) (intervals dates : list string)
    (start_date end_date folder : option string) (checksum max_workers : Z)
    (w : World) : World * result (option DownloadTracker) :=
  match daily_queue trading_type symbols intervals dates start_date end_date
          folder checksum with
  | Exc e => (w, Exc e)
  | Ret download_queue =>
      let total_files := Z.of_nat (length download_queue) in
      if total_files =? 0 then (w, Ret None)
      else
        let tracker := new_tracker total_files in
        if max_workers <=? 0 then (w, Exc "ValueError")
        else
          let s := run_queue download_queue
                     {| tracker := tracker; world := w |} in
          (world s, Ret (Some (Download.tracker s)))
  end.

(** A [for] loop whose body may raise: the first exception ends it. *)
Fixpoint for_each {A} (l : list A) (body : A -> M unit) : M unit :=
  match l with
  | [] => ret tt
  | x :: rest => do! body x in for_each rest body
  end.

(** ['{}-{}-01'.format(year, month)]: a year stands as the text [format]
    prints for it, a month is an integer. *)
Definition month_start (year : string) (month : Z) : string :=
  year +:+ "-" +:+ pretty month +:+ "-01".

(** ['{:02d}'.format(month)]: the decimal text, with a zero before it when
    it is shorter than two characters. *)
Definition two_digits (month : Z) : string :=
  if (String.length (pretty month) <? 2)%nat then "0" +:+ pretty month
  else pretty month.

(** The file names of a month are those of a day with the year and the
    two-digit month in the place of the date. *)
Definition month_token (year : string) (month : Z) : string :=
  year +:+ "-" +:+ two_digits month.

(** One turn of the innermost loop of [download_monthly_klines]. *)
Definition monthly_turn (trading_type symbol interval : string)
    (start_date end_date : Date) (folder : option string) (checksum : Z)
    (date_range : option string) (year : string) (month : Z) : M unit :=
  let! current_date :=
    lift (convert_to_date_object (month_start year month)) in
  if date_le start_date current_date && date_le current_date end_date then
    let path := get_path trading_type "klines" "monthly" symbol interval in
    let file_name := zip_name symbol interval (month_token year month) in
    do! call_download_file path file_name date_range folder in
    if checksum =? 1 then
      let checksum_path :=
        get_path trading_type "klines" "monthly" symbol interval in
      let checksum_file_name :=
        checksum_name symbol interval (month_token year month) in
      call_download_file checksum_path checksum_file_name date_range folder
    else ret tt
  else ret tt.

(** The four loops of [download_monthly_klines]. *)
Definition monthly_loops (trading_type : string)
    (symbols intervals years : list string) (months : list Z)
    (start_date end_date : Date) (folder : option string) (checksum : Z)
    (date_range : option string) : M unit :=
  for_each symbols (fun symbol =>
    for_each intervals (fun interval =>
      for_each years (fun year =>
        for_each months (fun month =>
          monthly_turn trading_type symbol interval start_date end_date
            folder checksum date_range year month)))).

(** [download_monthly_klines], from its arguments and the surroundings to
    the surroundings it leaves and whether it returns or raises.  It has no
    tracker; the loops run on a state that carries an empty one. *)
Definition download_monthly_klines (trading_type : string)
    (symbols : list string) (num_symbols : Z) (intervals years : list string)
    (months : list Z) (start_date end_date folder : option string)
    (checksum : Z) (w : World) : World * result unit :=
  let date_range :=
    if negb (absent start_date) && negb (absent end_date)
    then Some (default EmptyString start_date +:+ " "
               +:+ default EmptyString end_date)
    else None in
  match date_or_default start_date START_DATE with
  | Exc e => (w, Exc e)
  | Ret start =>
      match date_or_default end_date END_DATE with
      | Exc e => (w, Exc e)
      | Ret stop =>
          let intervals := valid_intervals intervals in
          let '(s, outcome) :=
            monthly_loops trading_type symbols intervals years months start
              stop folder checksum date_range
              {| tracker := new_tracker 0; world := w |} in
          (world s, outcome)
      end
  end.

(** *** Notions of the specification *)

(** The date of the task lies within its inclusive range. *)
Definition task_in_range (info : download_info) : bool :=
  match convert_to_date_object (date info) with
  | Ret current_date => in_range info current_date
  | Exc _ => false
  end.

(** The number of tasks of a queue that lie within their range. *)
Definition in_range_count (l : list download_info) : Z :=
  Z.of_nat (length (List.filter task_in_range l)).

(** The identity of a task: symbol, interval and date token. *)
Definition key_of (info : download_info) : string * string * string :=
  (symbol info, interval info, date info).

(** The tasks of the parameter space, in the order of the three loops. *)
Definition task_keys (symbols intervals dates : list string)
    : list (string * string * string) :=
  flat_map (fun s =>
    flat_map (fun i => map (fun d => (s, i, d)) dates) intervals) symbols.


(** The identifier the queue builder computes for a key. *)
Definition key_id (k : string * string * string) : string :=
  file_id k.1.1 k.1.2 k.2.

(** The keys a pass over [l] appends to the queue when the identifiers in
    [seen] have been met before. *)
Fixpoint scan (seen : gset string) (l : list (string * string * string))
    : list (string * string * string) :=
  match l with
  | [] => []
  | k :: r =>
      if decide (key_id k ∈ seen) then scan seen r
      else k :: scan ({[key_id k]} ∪ seen) r
  end.

(** The state with its tracker changed by [f]. *)
Definition with_tracker (f : DownloadTracker -> DownloadTracker)
    (s : State) : State :=
  {| tracker := f (tracker s); world := world s |}.

(** How a worker can resolve its task from the state [s]: the state it
    leaves and what it returns or raises.  [w'] stands for the surroundings
    the transfer primitive left. *)
Inductive resolved (info : download_info) (s : State)
    : State * result bool -> Prop :=
| resolved_bad_date e :
    convert_to_date_object (date info) = Exc e ->
    resolved info s (s, Exc e)
| resolved_out_of_range current_date :
    convert_to_date_object (date info) = Ret current_date ->
    in_range info current_date = false ->
    resolved info s (s, Ret true)
| resolved_skipped :
    task_in_range info = true ->
    file_complete (world s) (full_path info (world s)) = true ->
    resolved info s (with_tracker add_skipped s, Ret true)
| resolved_completed w' :
    task_in_range info = true ->
    file_complete (world s) (full_path info (world s)) = false ->
    resolved info s
      ({| tracker := add_completed (tracker s); world := w' |}, Ret true)
| resolved_failed w' :
    task_in_range info = true ->
    file_complete (world s) (full_path info (world s)) = false ->
    resolved info s
      ({| tracker := add_failed (add_failed_file (task_id info) (tracker s));
          world := w' |}, Ret false).

(** What holds of the tracker of a batch on [queue] while [pending] of its
    tasks are not resolved yet. *)
Definition tracker_inv (queue pending : list download_info)
    (t : DownloadTracker) : Prop :=
  total t = Z.of_nat (length queue)
  /\ 0 <= completed t /\ 0 <= failed t /\ 0 <= skipped t
  /\ processed t + in_range_count pending = in_range_count queue
  /\ processed t + Z.of_nat (length pending) <= total t
  /\ Z.of_nat (length (failed_files t)) = failed t.

(** The first day of the month converts and lies within the range. *)
Definition month_in_range (start_date end_date : Date) (year : string)
    (month : Z) : bool :=
  match convert_to_date_object (month_start year month) with
  | Ret current_date =>
      date_le start_date current_date && date_le current_date end_date
  | Exc _ => false
  end.

(** The transfer calls of one month: none outside the range, otherwise the
    data file and, under the checksum flag, its sidecar. *)
Definition turn_calls (trading_type symbol interval : string)
    (start_date end_date : Date) (checksum : Z) (year : string) (month : Z)
    : list (string * string) :=
  if month_in_range start_date end_date year month then
    let path := get_path trading_type "klines" "monthly" symbol interval in
    (path, zip_name symbol interval (month_token year month))
    :: (if checksum =? 1
        then [(path, checksum_name symbol interval (month_token year month))]
        else [])
  else [].

(** The transfer calls of the whole parameter space of the monthly
    download, in the order of the four loops. *)
Definition monthly_calls (trading_type : string)
    (symbols intervals years : list string) (months : list Z)
    (start_date end_date : Date) (checksum : Z) : list (string * string) :=
  flat_map (fun symbol =>
    flat_map (fun interval =>
      flat_map (fun year =>
        flat_map (fun month =>
          turn_calls trading_type symbol interval start_date end_date
            checksum year month) months) years) intervals) symbols.

(** A computation that only appends to the log of transfer calls: what it
    appends is a beginning of [calls], all of [calls] when it returns, and
    it returns when [ok] holds. *)
Definition extends_log (calls : list (string * string)) (ok : Prop)
    (m : M unit) : Prop :=
  forall s,
    tracker (m s).1 = tracker s
    /\ cwd (world (m s).1) = cwd (world s)
    /\ exists made,
         transfers (world (m s).1) = transfers (world s) ++ made
         /\ made `prefix_of` calls
         /\ ((m s).2 = Ret tt -> made = calls)
         /\ (ok -> (m s).2 = Ret tt).

End Model.

(** *** A sample setting

    Stand-ins for the helpers of [utility] and for the transfer primitive,
    to run the model on: a path resolver, a parser of [YYYY-MM-DD] day
    strings, and a transfer that stores 1024 bytes for the file names of a
    given remote listing and raises for any other name. *)

Definition sample_get_path (trading_type market_data_type time_period symbol
    interval : string) : string :=
  "data/" +:+ trading_type +:+ "/" +:+ time_period +:+ "/"
  +:+ market_data_type +:+ "/" +:+ PyStr.upper symbol +:+ "/" +:+ interval
  +:+ "/".

Definition digit (c : ascii) : option Z :=
  let n := N_of_ascii c in
  if ((48 <=? n) && (n <=? 57))%N then Some (Z.of_N n - 48) else None.

Fixpoint number_from (acc : Z) (s : string) : option Z :=
  match s with
  | EmptyString => Some acc
  | String c r =>
      match digit c with
      | Some d => number_from (10 * acc + d) r
      | None => None
      end
  end.

Definition number (s : string) : option Z :=
  if PyStr.truthy s then number_from 0 s else None.

(** [s.split('-')], with [cur] the field being read. *)
Fixpoint fields (cur s : string) : list string :=
  match s with
  | EmptyString => [cur]
  | String c r =>
      if Ascii.eqb c "-" then cur :: fields EmptyString r
      else fields (cur +:+ String c EmptyString) r
  end.

Definition days_in_month (y m : Z) : Z :=
  if m =? 2 then
    if (y mod 4 =? 0) && (negb (y mod 100 =? 0) || (y mod 400 =? 0))
    then 29 else 28
  else if (m =? 4) || (m =? 6) || (m =? 9) || (m =? 11) then 30
  else 31.

Definition sample_convert_to_date_object (d : string) : result Date :=
  match number <$> fields EmptyString d with
  | [Some y; Some m; Some dd] =>
      if (1 <=? y) && (y <=? 9999) && (1 <=? m) && (m <=? 12)
         && (1 <=? dd) && (dd <=? days_in_month y m)
      then Ret {| year := y; month := m; day := dd |}
      else Exc "ValueError"
  | _ => Exc "ValueError"
  end.

Definition sample_download_file (remote : list string)
    (path file_name : string) (date_range folder : option string)
    (w : World) : gmap string Z * result unit :=
  if bool_decide (file_name ∈ remote)
  then (<[os_path_join (default "." folder) path file_name := 1024]>
          (files w), Ret tt)
  else (files w, Exc "HTTPError").

(** The imports with that transfer; daily data come in the interval 1d
    only. *)
Definition sample_utility (remote : list string) : Utility := {|
  get_path := sample_get_path;
  convert_to_date_object := sample_convert_to_date_object;
  download_file := sample_download_file remote;
  START_DATE := {| year := 2017; month := 1; day := 1 |};
  END_DATE := {| year := 2030; month := 1; day := 1 |};
  DAILY_INTERVALS := ["1d"]
|}.

(** Two orders for the sets of intervals: that of [elements], and its
    reverse. *)
Definition trie_order : SetOrder := {|
  list_of_set := elements;
  list_of_set_elements := fun X => Permutation_refl (elements X)
|}.

Definition reverse_order : SetOrder := {|
  list_of_set := fun X => reverse (elements X);
  list_of_set_elements := fun X => reverse_Permutation (elements X)
|}.

Definition sample_world : World :=
  {| files := ∅; cwd := "/home/user"; transfers := [] |}.

Definition sample_worker (remote : list string)
    : download_info -> State -> State * result bool :=
  @download_single_kline_file (sample_utility remote).

Definition jan (d : Z) : Date := {| year := 2024; month := 1; day := d |}.

(** A task for one day of January 2024, with the range of the month after
    its second day. *)
Definition sample_task (day : string) (checksum : Z) : download_info :=
  {| trading_type := "spot"; symbol := "btcusdt"; interval := "1d";
     date := day; start_date := jan 2; end_date := jan 31;
     folder := Some "/data"; checksum := checksum; date_range := None |}.

Definition sample_state (total_files : Z) (w : World) : State :=
  {| tracker := new_tracker total_files; world := w |}.

(** The surroundings with the data file of the first and of the third of
    January stored. *)
Definition stored_world : World :=
  {| files :=
       {[ "/data/data/spot/daily/klines/BTCUSDT/1d/BTCUSDT-1d-2024-01-01.zip"
            := 1024;
          "/data/data/spot/daily/klines/BTCUSDT/1d/BTCUSDT-1d-2024-01-03.zip"
            := 1024 ]};
     cwd := "/home/user"; transfers := [] |}.

(** [download_daily_klines] for the symbol BTCUSDT and the interval 1d, into
    the folder [/data] with four workers. *)
Definition sample_daily (remote : list string) (dates : list string)
    (start_date end_date : option string) (checksum : Z)
    : World -> World * result (option DownloadTracker) :=
  @download_daily_klines (sample_utility remote) trie_order
    "spot" ["BTCUSDT"] 1 ["1d"] dates start_date end_date (Some "/data")
    checksum 4.

Definition both_zips : list string :=
  ["BTCUSDT-1d-2024-01-01.zip"; "BTCUSDT-1d-2024-01-02.zip"].

Definition zip_only : list string := ["BTCUSDT-1d-2024-01-03.zip"].

Definition zip_and_sidecar : list string :=
  ["BTCUSDT-1d-2024-01-03.zip"; "BTCUSDT-1d-2024-01-03.zip.CHECKSUM"].

Definition two_days : list download_info :=
  [sample_task "2024-01-01" 0; sample_task "2024-01-03" 0].

(** A transfer that stores 1024 bytes for every name it is asked for, and
    the imports with it; monthly data come in the interval 1d and 1h. *)
Definition open_download_file (path file_name : string)
    (date_range folder : option string) (w : World)
    : gmap string Z * result unit :=
  (<[os_path_join (default "." folder) path file_name := 1024]> (files w),
   Ret tt).

Definition open_utility : Utility := {|
  get_path := sample_get_path;
  convert_to_date_object := sample_convert_to_date_object;
  download_file := open_download_file;
  START_DATE := {| year := 2017; month := 1; day := 1 |};
  END_DATE := {| year := 2030; month := 1; day := 1 |};
  DAILY_INTERVALS := ["1d"; "1h"]
|}.

(** [download_monthly_klines] for BTCUSDT and the interval 1d in 2024, into
    the folder [/data]. *)
Definition sample_monthly (U : Utility) (O : SetOrder) (months : list Z)
    (start_date end_date : option string) (checksum : Z)
    : World -> World * result unit :=
  @download_monthly_klines U O "spot" ["BTCUSDT"] 1 ["1h"; "3d"; "1d"]
    ["2024"] months start_date end_date (Some "/data") checksum.


(** A transfer that returns without storing anything, and the imports with
    it. *)
Definition idle_download_file (path file_name : string)
    (date_range folder : option string) (w : World)
    : gmap string Z * result unit :=
  (files w, Ret tt).

Definition idle_utility : Utility := {|
  get_path := sample_get_path;
  convert_to_date_object := sample_convert_to_date_object;
  download_file := idle_download_file;
  START_DATE := {| year := 2017; month := 1; day := 1 |};
  END_DATE := {| year := 2030; month := 1; day := 1 |};
  DAILY_INTERVALS := ["1d"]
|}.

(** The surroundings with the data file of the third of January there and
    empty. *)
Definition empty_file_world : World :=
  {| files :=
       {[ "/data/data/spot/daily/klines/BTCUSDT/1d/BTCUSDT-1d-2024-01-03.zip"
            := 0 ]};
     cwd := "/home/user"; transfers := [] |}.

(** Three days of January, the first of them outside the range of
    [sample_task]. *)
Definition three_days : list download_info :=
  [sample_task "2024-01-01" 1; sample_task "2024-01-03" 1;
   sample_task "2024-01-04" 1].


End Download.

(** ** Facts on verify-data.py *)

Module VerifyFacts.
Import Verify.

Example with_suffix_sidecar :
  PyPath.with_suffix_empty "data/BTCUSDT-1d-2024-01-01.zip.CHECKSUM"
  = "data/BTCUSDT-1d-2024-01-01.zip".
Proof. reflexivity. Qed.

Example split_sidecar_line :
  PyStr.split
    (PyStr.strip
       (PyStr.readline
          ("abc123  BTCUSDT-1d-2024-01-01.zip" +:+ nl +:+ "next")))
  = ["abc123"; "BTCUSDT-1d-2024-01-01.zip"].
Proof. reflexivity. Qed.


Section Facts.

Context `{Hashlib} `{Host}.

(** *** Facts on the string operations *)

Lemma lstrip_truthy s : PyStr.truthy (PyStr.lstrip s) = negb (PyStr.blank s).
Proof.
  induction s as [|c r IH]; simpl; [done|].
  destruct (PyStr.isspace c); simpl; done.
Qed.

Lemma blank_lstrip s : PyStr.blank (PyStr.lstrip s) = PyStr.blank s.
Proof.
  induction s as [|c r IH]; simpl; [done|].
  destruct (PyStr.isspace c) eqn:Hc; simpl; [done|by rewrite Hc].
Qed.

Lemma rstrip_truthy s : PyStr.truthy (PyStr.rstrip s) = negb (PyStr.blank s).
Proof.
  induction s as [|c r IH]; simpl; [done|].
  rewrite IH, negb_involutive.
  destruct (PyStr.isspace c), (PyStr.blank r); done.
Qed.

Lemma blank_rstrip s : PyStr.blank (PyStr.rstrip s) = PyStr.blank s.
Proof.
  induction s as [|c r IH]; simpl; [done|].
  rewrite rstrip_truthy, negb_involutive.
  destruct (PyStr.isspace c) eqn:Hc, (PyStr.blank r) eqn:Hr;
    simpl; rewrite ?Hc, ?IH; done.
Qed.

Lemma strip_truthy s : PyStr.truthy (PyStr.strip s) = negb (PyStr.blank s).
Proof. unfold PyStr.strip. by rewrite rstrip_truthy, blank_lstrip. Qed.

Lemma blank_strip s : PyStr.blank (PyStr.strip s) = PyStr.blank s.
Proof. unfold PyStr.strip. by rewrite blank_rstrip, blank_lstrip. Qed.

Lemma append_char_truthy w c :
  PyStr.truthy (w +:+ String c EmptyString) = true.
Proof. by destruct w. Qed.

(** A run that has been started is always handed out. *)
Lemma split_from_started w s : PyStr.split_from (Some w) s <> [].
Proof.
  revert w. induction s as [|c r IH]; intros w; simpl; [done|].
  destruct (PyStr.isspace c); [done|apply IH].
Qed.

Lemma split_from_nonempty w s :
  PyStr.blank s = false -> PyStr.split_from w s <> [].
Proof.
  revert w. induction s as [|c r IH]; intros w; simpl; [done|].
  destruct (PyStr.isspace c); simpl.
  - intros Hr. destruct w; [done|by apply IH].
  - intros _. apply split_from_started.
Qed.

(** [split] never hands out an empty string. *)
Lemma split_from_words w s :
  from_option (fun x => PyStr.truthy x = true) True w ->
  Forall (fun t => PyStr.truthy t = true) (PyStr.split_from w s).
Proof.
  revert w. induction s as [|c r IH]; intros w Hw; simpl.
  - destruct w; [by repeat constructor|constructor].
  - destruct (PyStr.isspace c).
    + destruct w; [constructor; [done|]|]; by apply IH.
    + apply IH. simpl. apply append_char_truthy.
Qed.

Lemma first_token_blank line :
  PyStr.blank line = true -> falsy (first_token (PyStr.strip line)) = true.
Proof.
  intros Hb. unfold first_token.
  by rewrite strip_truthy, Hb.
Qed.

Lemma first_token_some line :
  PyStr.blank line = false ->
  exists t, first_token (PyStr.strip line) = Some t
            /\ PyStr.truthy t = true.
Proof.
  intros Hb. unfold first_token. rewrite strip_truthy, Hb. simpl.
  pose proof (split_from_nonempty None (PyStr.strip line)) as Hne.
  rewrite blank_strip in Hne. specialize (Hne Hb).
  pose proof (split_from_words None (PyStr.strip line) I) as Hall.
  unfold PyStr.split.
  destruct (PyStr.split_from None (PyStr.strip line)) as [|t ts]; [done|].
  exists t. split; [done|]. by inversion Hall.
Qed.

(** The sidecar gives no digest exactly when it cannot be read or its
    first line is blank. *)
Lemma read_checksum_file_falsy p :
  falsy (read_checksum_file p)
  = match fs_read_text p with
    | Some text => PyStr.blank (PyStr.readline text)
    | None => true
    end.
Proof.
  unfold read_checksum_file. destruct (fs_read_text p) as [text|]; [|done].
  destruct (PyStr.blank (PyStr.readline text)) eqn:Hb.
  - by apply first_token_blank.
  - destruct (first_token_some _ Hb) as (t & -> & Ht). simpl. by rewrite Ht.
Qed.

Lemma app_cons c r s : String c r +:+ s = String c (r +:+ s).
Proof. reflexivity. Qed.

Lemma app_assoc_str a b c : (a +:+ b) +:+ c = a +:+ b +:+ c.
Proof. induction a as [|x a IH]; [done|]. rewrite !app_cons. by f_equal. Qed.

Lemma lstrip_blank_app pre s :
  PyStr.blank pre = true -> PyStr.lstrip (pre +:+ s) = PyStr.lstrip s.
Proof.
  induction pre as [|c r IH]; [done|]. rewrite app_cons. simpl.
  intros [-> Hr]%andb_true_iff. by apply IH.
Qed.

Lemma lstrip_word e s :
  PyStr.truthy e = true -> PyStr.no_space e = true ->
  PyStr.lstrip (e +:+ s) = e +:+ s.
Proof.
  destruct e as [|c r]; [done|]. intros _. rewrite app_cons. simpl.
  intros [Hc _]%andb_true_iff. by apply negb_true_iff in Hc as ->.
Qed.

Lemma rstrip_word_app e s :
  PyStr.no_space e = true -> PyStr.rstrip (e +:+ s) = e +:+ PyStr.rstrip s.
Proof.
  induction e as [|c r IH]; [done|]. rewrite !app_cons. simpl.
  intros [Hc Hr]%andb_true_iff. apply negb_true_iff in Hc as ->.
  simpl. by rewrite IH.
Qed.

Lemma ends_word_rstrip s :
  PyStr.ends_word s = true -> PyStr.ends_word (PyStr.rstrip s) = true.
Proof.
  destruct s as [|c r]; [done|]. simpl. intros Hc. rewrite Hc.
  by destruct (negb (PyStr.truthy (PyStr.rstrip r))).
Qed.

(** A word in front of the text is the first string [split] hands out,
    after the run already started. *)
Lemma split_from_word w e q :
  PyStr.truthy e = true -> PyStr.no_space e = true ->
  PyStr.ends_word q = true ->
  exists ts, PyStr.split_from w (e +:+ q) = (default EmptyString w +:+ e) :: ts.
Proof.
  revert w. induction e as [|c r IH]; [done|]. intros w _.
  rewrite app_cons. simpl. intros [Hc Hr]%andb_true_iff Hq.
  apply negb_true_iff in Hc. rewrite Hc.
  destruct r as [|d r'].
  - change (EmptyString +:+ q) with q. destruct q as [|x q']; simpl.
    + by eexists.
    + simpl in Hq. rewrite Hq. by eexists.
  - destruct (IH (Some (default EmptyString w +:+ String c EmptyString))
                eq_refl Hr Hq) as [ts Hts].
    exists ts. rewrite Hts. simpl. by rewrite app_assoc_str.
Qed.

(** The token the code takes is the first word of the line. *)
Lemma first_token_first_word line e :
  first_word line e -> first_token (PyStr.strip line) = Some e.
Proof.
  intros (pre & post & -> & Hpre & He & Hns & Hpost).
  unfold PyStr.strip.
  rewrite (lstrip_blank_app _ _ Hpre), (lstrip_word _ _ He Hns).
  rewrite (rstrip_word_app _ _ Hns).
  unfold first_token.
  assert (PyStr.truthy (e +:+ PyStr.rstrip post) = true) as ->.
  { destruct e; [done|]. by rewrite app_cons. }
  destruct (split_from_word None e _ He Hns (ends_word_rstrip _ Hpost))
    as [ts Hts].
  unfold PyStr.split. by rewrite Hts.
Qed.

Lemma take_drop_word s :
  s = PyStr.take_word s +:+ PyStr.drop_word s
  /\ PyStr.no_space (PyStr.take_word s) = true
  /\ PyStr.ends_word (PyStr.drop_word s) = true.
Proof.
  induction s as [|c r (IH1 & IH2 & IH3)]; simpl; [done|].
  destruct (PyStr.isspace c) eqn:Hc; simpl.
  - by rewrite Hc.
  - rewrite Hc, app_cons. simpl. by rewrite <- IH1.
Qed.

(** A line that is not blank has a first word. *)
Lemma first_word_exists line :
  PyStr.blank line = false -> exists e, first_word line e.
Proof.
  induction line as [|c r IH]; simpl; [done|].
  destruct (PyStr.isspace c) eqn:Hc; simpl.
  - intros (e & pre & post & -> & Hpre & He)%IH.
    exists e, (String c pre), post. rewrite app_cons. simpl.
    by rewrite Hc.
  - intros _. destruct (take_drop_word r) as (Hr & Hword & Hpost).
    exists (String c (PyStr.take_word r)), EmptyString, (PyStr.drop_word r).
    simpl. rewrite Hc. simpl. repeat split; try done.
    change (EmptyString +:+ ?x) with x. by rewrite app_cons, <- Hr.
Qed.

(** Every sidecar is unusable or holds a digest. *)
Lemma sidecar_unusable_or_digest p :
  sidecar_unusable p \/ exists e, sidecar_digest p e.
Proof.
  unfold sidecar_unusable, sidecar_digest.
  destruct (fs_read_text p) as [text|]; [|by left; left].
  destruct (PyStr.blank (PyStr.readline text)) eqn:Hb.
  - left. right. by exists text.
  - right. destruct (first_word_exists _ Hb) as [e He]. by exists e, text.
Qed.

Lemma read_checksum_file_digest p e :
  sidecar_digest p e ->
  read_checksum_file p = Some e /\ PyStr.truthy e = true.
Proof.
  intros (text & Htext & Hw). unfold read_checksum_file. rewrite Htext.
  split; [by apply first_token_first_word|].
  by destruct Hw as (? & ? & ? & ? & ? & ?).
Qed.

Lemma read_checksum_file_unusable p :
  sidecar_unusable p <-> falsy (read_checksum_file p) = true.
Proof.
  rewrite read_checksum_file_falsy. unfold sidecar_unusable.
  destruct (fs_read_text p) as [text|]; [|naive_solver].
  split; [intros [?|(? & ? & ?)]; by simplify_eq|eauto].
Qed.

(** *** The digest of the data file *)

Lemma chunk_size_pos : (0 < chunk_size)%nat.
Proof. unfold chunk_size. lia. Qed.

Lemma update_chunks_unfold k h data :
  update_chunks (S k) h data
  = match take chunk_size data with
    | [] => h
    | x :: l => update_chunks k (sha256_update h (x :: l))
                              (drop chunk_size data)
    end.
Proof. reflexivity. Qed.

Lemma calculate_sha256_read p data :
  fs_read_bytes p = Some data ->
  calculate_sha256 p
  = Some (sha256_hexdigest (update_chunks (S (length data)) sha256_new data)).
Proof. intros Hdata. unfold calculate_sha256. by rewrite Hdata. Qed.

Section Streaming.

(** [hashlib]: feeding a hash object piece by piece is feeding it the
    concatenation, and a hexadecimal digest is never empty. *)
Hypothesis sha256_update_nil : forall h, sha256_update h [] = h.
Hypothesis sha256_update_app : forall h a b,
  sha256_update (sha256_update h a) b = sha256_update h (a ++ b).
Hypothesis hexdigest_nonempty : forall h,
  PyStr.truthy (sha256_hexdigest h) = true.

(** Reading by chunks hashes the whole content. *)
Lemma update_chunks_whole fuel h data :
  (length data < fuel)%nat ->
  update_chunks fuel h data = sha256_update h data.
Proof.
  revert h data. induction fuel as [|k IH]; intros h data Hlen; [lia|].
  rewrite update_chunks_unfold. pose proof chunk_size_pos as Hpos.
  destruct (take chunk_size data) as [|x l] eqn:Htake.
  - destruct data as [|y data]; [by rewrite sha256_update_nil|].
    destruct chunk_size; [lia|done].
  - rewrite IH.
    + by rewrite sha256_update_app, <- Htake, take_drop.
    + rewrite length_drop. destruct data; [done|]. simpl in *. lia.
Qed.

Lemma calculate_sha256_digest p a :
  file_digest p a <-> calculate_sha256 p = Some a.
Proof.
  unfold file_digest. split.
  - intros (data & Hdata & ->).
    rewrite (calculate_sha256_read _ _ Hdata).
    by rewrite update_chunks_whole by lia.
  - destruct (fs_read_bytes p) as [data|] eqn:Hdata.
    + rewrite (calculate_sha256_read _ _ Hdata).
      rewrite update_chunks_whole by lia. intros [= <-]. by exists data.
    + unfold calculate_sha256. by rewrite Hdata.
Qed.

Lemma calculate_sha256_truthy p a :
  calculate_sha256 p = Some a -> PyStr.truthy a = true.
Proof.
  unfold calculate_sha256. destruct (fs_read_bytes p); [|done].
  intros [= <-]. apply hexdigest_nonempty.
Qed.

Lemma calculate_sha256_fails p :
  fs_read_bytes p = None -> falsy (calculate_sha256 p) = true.
Proof. unfold calculate_sha256. by intros ->. Qed.

(** C3. The worker classifies a sidecar as missing when its data file is
    absent; otherwise as invalid_checksum when the sidecar cannot be read or
    its first line holds no token; otherwise as read_error when the digest of
    the data file cannot be computed; otherwise as verified when the expected
    and the computed digest are equal up to case, and as corrupted when they
    differ. *)
Theorem worker_classification (p : string) :
  let data_file := PyPath.with_suffix_empty p in
  let r := verify_single_file_worker p in
  (fs_exists data_file = false -> status r = missing)
  /\ (fs_exists data_file = true -> sidecar_unusable p ->
      status r = invalid_checksum)
  /\ (forall e, fs_exists data_file = true -> sidecar_digest p e ->
      fs_read_bytes data_file = None -> status r = read_error)
  /\ (forall e a, fs_exists data_file = true -> sidecar_digest p e ->
      file_digest data_file a -> PyStr.lower e = PyStr.lower a ->
      status r = verified)
  /\ (forall e a, fs_exists data_file = true -> sidecar_digest p e ->
      file_digest data_file a -> PyStr.lower e <> PyStr.lower a ->
      status r = corrupted).
Proof.
  intros data_file r. subst r. unfold verify_single_file_worker.
  fold data_file. repeat split.
  - by intros ->.
  - intros -> Hbad%read_checksum_file_unusable. simpl. by rewrite Hbad.
  - intros e -> [He Hte]%read_checksum_file_digest Hread. simpl.
    rewrite He. simpl. rewrite Hte. simpl.
    by rewrite (calculate_sha256_fails _ Hread).
  - intros e a -> [He Hte]%read_checksum_file_digest Ha%calculate_sha256_digest
      Heq. simpl. rewrite He, Ha. simpl.
    rewrite Hte, (calculate_sha256_truthy _ _ Ha). simpl.
    unfold same_digest. by rewrite Heq, String.eqb_refl.
  - intros e a -> [He Hte]%read_checksum_file_digest Ha%calculate_sha256_digest
      Hne. simpl. rewrite He, Ha. simpl.
    rewrite Hte, (calculate_sha256_truthy _ _ Ha). simpl.
    unfold same_digest. apply String.eqb_neq in Hne. by rewrite Hne.
Qed.

End Streaming.

(** *** The two directory passes *)

(** The sequential loop counts a sidecar as the specification counts the
    class the worker gives it. *)
Lemma tally_sequential_spec c p :
  tally_sequential c p = tally_spec c (status (verify_single_file_worker p)).
Proof.
  unfold tally_sequential, verify_single_file_worker.
  destruct (fs_exists (PyPath.with_suffix_empty p)); simpl; [|done].
  destruct (falsy (read_checksum_file p)); simpl; [done|].
  destruct (falsy (calculate_sha256 (PyPath.with_suffix_empty p)));
    simpl; [done|].
  by destruct (same_digest _ _).
Qed.

Lemma fold_passed {A} (f : Counts -> A -> Counts) (bad : A -> bool) :
  (forall c x, bad x = false ->
     n_failed (f c x) = n_failed c /\ n_missing (f c x) = n_missing c) ->
  (forall c x, bad x = true ->
     n_failed (f c x) + n_missing (f c x) = n_failed c + n_missing c + 1
     /\ n_failed c <= n_failed (f c x) /\ n_missing c <= n_missing (f c x)) ->
  forall l c, 0 <= n_failed c -> 0 <= n_missing c ->
    passed (fold_left f l c) = passed c && forallb (fun x => negb (bad x)) l.
Proof.
  intros Hgood Hbad. induction l as [|x l IH]; intros c Hf Hm; simpl.
  - by rewrite andb_true_r.
  - destruct (bad x) eqn:Hx; simpl.
    + destruct (Hbad c x Hx) as (Hsum & Hf' & Hm').
      rewrite IH by lia. rewrite andb_false_r.
      apply andb_false_iff. unfold passed.
      destruct (n_failed (f c x) =? 0) eqn:E1; [|by left].
      destruct (n_missing (f c x) =? 0) eqn:E2; [|by left]. lia.
    + destruct (Hgood c x Hx) as [Hf' Hm'].
      rewrite IH by lia. unfold passed. by rewrite Hf', Hm'.
Qed.

Lemma sequential_passed l :
  passed (fold_left tally_sequential l no_counts) = forallb sidecar_ok l.
Proof.
  rewrite (fold_passed tally_sequential (fun p => negb (sidecar_ok p)));
    simpl; try lia.
  - induction l as [|p l IH]; simpl; [done|].
    by rewrite IH, negb_involutive.
  - intros c p Hp. rewrite tally_sequential_spec. unfold sidecar_ok in Hp.
    by destruct (status (verify_single_file_worker p)).
  - intros c p Hp. rewrite tally_sequential_spec. unfold sidecar_ok in Hp.
    destruct (status (verify_single_file_worker p)); simpl in *; try done; lia.
Qed.

Lemma parallel_passed l :
  passed (fold_left tally_parallel (map verify_single_file_worker l) no_counts)
  = forallb (fun p => negb (counted_parallel
                              (status (verify_single_file_worker p)))) l.
Proof.
  rewrite (fold_passed tally_parallel
             (fun r => counted_parallel (status r))); simpl; try lia.
  - induction l as [|p l IH]; simpl; [done|]. by rewrite IH.
  - intros c r Hr. unfold tally_parallel. by destruct (status r).
  - intros c r Hr. unfold tally_parallel.
    destruct (status r); simpl in *; try done; lia.
Qed.

Lemma verify_directory_sequential_dir d :
  fs_is_dir d = true -> fs_glob d <> [] ->
  verify_directory_sequential d = forallb sidecar_ok (fs_glob d).
Proof.
  intros Hd Hne. unfold verify_directory_sequential, fs_is_dir, fs_exists in *.
  destruct (fs_kind d); [|done]. simpl. rewrite <- sequential_passed.
  by destruct (fs_glob d).
Qed.

Lemma verify_directory_parallel_dir d workers :
  fs_is_dir d = true -> fs_glob d <> [] ->
  1 <= pool_processes workers (length (fs_glob d)) ->
  verify_directory_parallel d workers
  = Ret (forallb (fun p => negb (counted_parallel
                                   (status (verify_single_file_worker p))))
                 (fs_glob d)).
Proof.
  intros Hd Hne Hpool.
  unfold verify_directory_parallel, fs_is_dir, fs_exists in *.
  destruct (fs_kind d); [|done]. simpl. rewrite <- parallel_passed.
  destruct (fs_glob d) as [|p l] eqn:Hl; [done|].
  destruct (Z.ltb_spec (pool_processes workers (length (p :: l))) 1);
    [lia|done].
Qed.

(** With no sidecar in the directory both passes report a failure. *)
Lemma no_sidecar_fails d workers :
  fs_glob d = [] ->
  verify_directory_sequential d = false
  /\ verify_directory_parallel d workers = Ret false.
Proof.
  intros Hd. unfold verify_directory_sequential, verify_directory_parallel.
  rewrite Hd. by destruct (fs_exists d).
Qed.

(** C2, as the code has it.  The exit status is 1 when nothing is at the
    target and when the directory holds no sidecar.  With at least one
    sidecar, the sequential pass exits with 0 exactly when no sidecar is
    corrupted, invalid_checksum, read_error or missing, and with 1 otherwise;
    the parallel pass, given at least one worker process, exits with 1 when a
    sidecar is corrupted or missing and with 0 when every sidecar is
    verified. *)
Theorem exit_status_of_pass (target : string) (workers : option Z) :
  let sidecars := fs_glob target in
  let worker_status := fun p => status (verify_single_file_worker p) in
  (forall sequential, fs_kind target = None ->
     main target workers sequential = 1)
  /\ (forall sequential, fs_is_dir target = true -> sidecars = [] ->
      main target workers sequential = 1)
  /\ (fs_is_dir target = true -> sidecars <> [] ->
      main target workers true
      = if forallb sidecar_ok sidecars then 0 else 1)
  /\ (fs_is_dir target = true -> sidecars <> [] ->
      1 <= pool_processes workers (length sidecars) ->
      (Exists (fun p => worker_status p = corrupted
                        \/ worker_status p = missing) sidecars ->
       main target workers false = 1)
      /\ (Forall (fun p => worker_status p = verified) sidecars ->
          main target workers false = 0)).
Proof.
  intros sidecars worker_status. subst sidecars worker_status.
  assert (Hfile : fs_is_dir target = true -> fs_is_file target = false).
  { unfold fs_is_dir, fs_is_file. by destruct (fs_kind target) as [[]|]. }
  split; [|split; [|split]].
  - intros sequential Hnone. unfold main, fs_is_file, fs_is_dir.
    by rewrite Hnone.
  - intros sequential Hdir Hnil. unfold main. rewrite (Hfile Hdir), Hdir.
    destruct (no_sidecar_fails target workers Hnil) as [-> ->].
    by destruct sequential.
  - intros Hdir Hne. unfold main. rewrite (Hfile Hdir), Hdir.
    rewrite (verify_directory_sequential_dir _ Hdir Hne). simpl.
    by destruct (forallb sidecar_ok (fs_glob target)).
  - intros Hdir Hne Hpool. unfold main. rewrite (Hfile Hdir), Hdir.
    rewrite (verify_directory_parallel_dir _ _ Hdir Hne Hpool). simpl.
    split.
    + intros (p & Hp & Hs)%Exists_exists.
      destruct (forallb _ (fs_glob target)) eqn:Hall; [|done].
      rewrite forallb_forall in Hall.
      specialize (Hall p (proj1 (list_elem_of_In _ _) Hp)).
      by destruct Hs as [Hs|Hs]; rewrite Hs in Hall.
    + intros Hgood.
      assert (forallb (fun p => negb (counted_parallel
                (status (verify_single_file_worker p)))) (fs_glob target)
              = true) as ->; [|done].
      apply forallb_forall. intros p Hp%list_elem_of_In.
      rewrite Forall_forall in Hgood. by rewrite (Hgood p Hp).
Qed.

(** Where no sidecar is invalid_checksum or read_error the two passes
    return the same boolean. *)
Lemma modes_agree_without_uncounted d workers :
  fs_is_dir d = true -> fs_glob d <> [] ->
  1 <= pool_processes workers (length (fs_glob d)) ->
  Forall (fun p => status (verify_single_file_worker p) <> invalid_checksum
                   /\ status (verify_single_file_worker p) <> read_error)
         (fs_glob d) ->
  verify_directory_parallel d workers = Ret (verify_directory_sequential d).
Proof.
  intros Hdir Hne Hpool Hall.
  rewrite (verify_directory_parallel_dir _ _ Hdir Hne Hpool).
  rewrite (verify_directory_sequential_dir _ Hdir Hne). f_equal.
  clear Hdir Hne Hpool. revert Hall.
  generalize (fs_glob d). intros l.
  induction 1 as [|p l [Hp1 Hp2] _ IH]; simpl; [done|].
  rewrite IH. f_equal. unfold sidecar_ok.
  by destruct (status (verify_single_file_worker p)).
Qed.

(** A sidecar the worker classifies invalid_checksum or read_error, among
    sidecars none of which is corrupted or missing, splits the two passes:
    the parallel pass succeeds and the sequential pass fails. *)
Lemma uncounted_sidecar_splits_modes d workers :
  fs_is_dir d = true ->
  1 <= pool_processes workers (length (fs_glob d)) ->
  Forall (fun p => counted_parallel (status (verify_single_file_worker p))
                   = false) (fs_glob d) ->
  Exists (fun p => status (verify_single_file_worker p) = invalid_checksum
                   \/ status (verify_single_file_worker p) = read_error)
         (fs_glob d) ->
  verify_directory_parallel d workers = Ret true
  /\ verify_directory_sequential d = false.
Proof.
  intros Hdir Hpool Hnone Hsome.
  assert (Hne : fs_glob d <> []) by (intros Hnil; rewrite Hnil in Hsome;
                                     by apply Exists_nil in Hsome).
  rewrite (verify_directory_parallel_dir _ _ Hdir Hne Hpool).
  rewrite (verify_directory_sequential_dir _ Hdir Hne). split.
  - f_equal. apply forallb_forall. intros p Hp%list_elem_of_In.
    rewrite Forall_forall in Hnone. by rewrite (Hnone p Hp).
  - apply Exists_exists in Hsome as (p & Hp & Hs).
    destruct (forallb sidecar_ok (fs_glob d)) eqn:Hall; [|done].
    rewrite forallb_forall in Hall.
    specialize (Hall p (proj1 (list_elem_of_In _ _) Hp)).
    unfold sidecar_ok in Hall. by destruct Hs as [Hs|Hs]; rewrite Hs in Hall.
Qed.

(** The worker always settles on one of the five classes. *)
Lemma worker_status_known p :
  status (verify_single_file_worker p) <> unknown.
Proof.
  unfold verify_single_file_worker.
  destruct (fs_exists (PyPath.with_suffix_empty p)); simpl; [|done].
  destruct (falsy (read_checksum_file p)); simpl; [done|].
  destruct (falsy (calculate_sha256 (PyPath.with_suffix_empty p)));
    simpl; [done|].
  by destruct (same_digest _ _).
Qed.


End Facts.

Lemma sample_update_app (h a b : list Byte.byte) : (h ++ a) ++ b = h ++ a ++ b.
Proof. symmetry. apply app_assoc. Qed.

Lemma sample_hexdigest_nonempty fed :
  PyStr.truthy (sample_hexdigest fed) = true.
Proof. by destruct fed. Qed.

Example sample_classes :
  map (fun p => status (sample_worker p)) (@fs_glob sample_host "data")
  = [verified; corrupted; missing; invalid_checksum; read_error].
Proof. vm_compute. reflexivity. Qed.

(** Witness of C3: the five classes on the sidecars of [data]. *)
Lemma worker_classification_witness :
  status (sample_worker "data/c.zip.CHECKSUM") = missing
  /\ status (sample_worker "data/d.zip.CHECKSUM") = invalid_checksum
  /\ status (sample_worker "data/e.zip.CHECKSUM") = read_error
  /\ status (sample_worker "data/a.zip.CHECKSUM") = verified
  /\ status (sample_worker "data/b.zip.CHECKSUM") = corrupted.
Proof.
  pose proof (fun p => @worker_classification sample_hashlib sample_host
    (@app_nil_r _) sample_update_app sample_hexdigest_nonempty p) as W.
  split; [|split; [|split; [|split]]].
  - apply (proj1 (W "data/c.zip.CHECKSUM")). reflexivity.
  - apply (proj1 (proj2 (W "data/d.zip.CHECKSUM"))); [reflexivity|].
    right. eexists. split; reflexivity.
  - apply (proj1 (proj2 (proj2 (W "data/e.zip.CHECKSUM"))) "abc123");
      [reflexivity| |reflexivity].
    eexists. split; [reflexivity|].
    exists "", "  e.zip". repeat split; reflexivity.
  - apply (proj1 (proj2 (proj2 (proj2 (W "data/a.zip.CHECKSUM"))))
             "ABC123" "abc123"); [reflexivity| | |reflexivity].
    + eexists. split; [reflexivity|].
      exists "", ("  a.zip" +:+ nl). repeat split; reflexivity.
    + exists []. split; reflexivity.
  - apply (proj2 (proj2 (proj2 (proj2 (W "data/b.zip.CHECKSUM"))))
             "abc123" "def456"); [reflexivity| | |discriminate].
    + eexists. split; [reflexivity|].
      exists "", ("  b.zip" +:+ nl). repeat split; reflexivity.
    + exists [Byte.x50; Byte.x4b]. split; reflexivity.
Defined.

(** C1, on the code.  One sidecar without content next to its data file:
    the parallel pass leaves it uncounted and succeeds, the sequential pass
    counts it as failed. *)
Theorem modes_disagree_on_invalid_sidecar :
  @fs_glob sample_host "inbox" = ["inbox/x.zip.CHECKSUM"]
  /\ status (sample_worker "inbox/x.zip.CHECKSUM") = invalid_checksum
  /\ @verify_directory_parallel sample_hashlib sample_host "inbox" None
     = Ret true
  /\ @verify_directory_sequential sample_hashlib sample_host "inbox" = false
  /\ sample_main "inbox" None false = 0
  /\ sample_main "inbox" None true = 1.
Proof. vm_compute. repeat split; reflexivity. Qed.

(** C2 as stated fails on a directory without sidecars: no sidecar is
    corrupted, invalid_checksum, read_error or missing, and the exit status
    is 1 in both modes. *)
Lemma empty_directory_exits_1 :
  ~ (forall sequential,
       sample_main "empty" None sequential = 0
       <-> Forall (fun p => is_failed (status (sample_worker p)) = false
                            /\ is_missing (status (sample_worker p)) = false)
                  (@fs_glob sample_host "empty")).
Proof.
  intros Hclaim. destruct (Hclaim true) as [_ Hexit].
  assert (Hexit' : sample_main "empty" None true = 0).
  { apply Hexit. change (@fs_glob sample_host "empty") with (@nil string).
    constructor. }
  vm_compute in Hexit'. discriminate.
Qed.

(** Witness of C2: nothing at the target, no sidecar, a clean directory in
    both modes, and a directory with failures in both modes. *)
Lemma exit_status_of_pass_witness :
  sample_main "nowhere" None false = 1
  /\ sample_main "empty" None true = 1
  /\ sample_main "clean" None true = 0
  /\ sample_main "data" None true = 1
  /\ sample_main "data" (Some 2) false = 1
  /\ sample_main "clean" None false = 0.
Proof.
  pose proof (fun t w => @exit_status_of_pass sample_hashlib sample_host t w)
    as W.
  split; [|split; [|split; [|split; [|split]]]].
  - apply (proj1 (W "nowhere" None)). reflexivity.
  - apply (proj1 (proj2 (W "empty" None))); reflexivity.
  - apply (proj1 (proj2 (proj2 (W "clean" None)))); [reflexivity|discriminate].
  - apply (proj1 (proj2 (proj2 (W "data" None)))); [reflexivity|discriminate].
  - apply (proj2 (proj2 (proj2 (W "data" (Some 2)))));
      [reflexivity|discriminate|vm_compute; discriminate|].
    apply Exists_cons_tl, Exists_cons_hd. left. reflexivity.
  - apply (proj2 (proj2 (proj2 (W "clean" None))));
      [reflexivity|discriminate|vm_compute; discriminate|].
    repeat constructor.
Defined.


(** ** Further facts on verify-data.py *)

Section FurtherFacts.

Context `{Hashlib} `{Host}.

(** *** Paths *)

Lemma length_app_str a b :
  String.length (a +:+ b) = (String.length a + String.length b)%nat.
Proof. induction a as [|c a IH]; [done|]. rewrite app_cons. simpl. by rewrite IH. Qed.

Lemma substring_all b : String.substring 0 (String.length b) b = b.
Proof. induction b as [|c b IH]; [done|]. simpl. by rewrite IH. Qed.

Lemma substring_prefix a b :
  String.substring 0 (String.length a) (a +:+ b) = a.
Proof.
  induction a as [|c a IH]; [by destruct b|]. rewrite app_cons. simpl.
  by rewrite IH.
Qed.

Lemma substring_drop a b :
  String.substring (String.length a) (String.length b) (a +:+ b) = b.
Proof.
  induction a as [|c a IH]; [apply substring_all|]. by rewrite app_cons.
Qed.

Lemma rfind_app ch a b :
  PyStr.rfind ch (a +:+ b)
  = match PyStr.rfind ch b with
    | Some i => Some (String.length a + i)%nat
    | None => PyStr.rfind ch a
    end.
Proof.
  induction a as [|c a IH].
  - change (EmptyString +:+ b) with b. by destruct (PyStr.rfind ch b).
  - rewrite app_cons. simpl. rewrite IH. by destruct (PyStr.rfind ch b).
Qed.

Lemma rfind_split ch p i :
  PyStr.rfind ch p = Some i ->
  exists pre post,
    p = pre +:+ String ch post
    /\ String.length pre = i /\ PyStr.rfind ch post = None.
Proof.
  revert i. induction p as [|c p IH]; intros i; simpl; [done|].
  destruct (PyStr.rfind ch p) as [j|] eqn:Hp.
  - intros [= <-]. destruct (IH j eq_refl) as (pre & post & -> & <- & Hpost).
    by exists (String c pre), post.
  - destruct (Ascii.eqb_spec c ch) as [->|]; [|done]. intros [= <-].
    by exists EmptyString, p.
Qed.

(** The name of a path with a suffix appended that holds no slash. *)
Lemma name_app p x :
  PyStr.rfind "/" x = None -> PyPath.name (p +:+ x) = PyPath.name p +:+ x.
Proof.
  intros Hx. unfold PyPath.name. rewrite rfind_app, Hx.
  destruct (PyStr.rfind "/" p) as [i|] eqn:Hp; [|done].
  destruct (rfind_split _ _ _ Hp) as (pre & post & -> & <- & _).
  assert (Hcut : forall y,
            String.substring (S (String.length pre))
              (String.length ((pre +:+ String "/" post) +:+ y)
               - S (String.length pre))
              ((pre +:+ String "/" post) +:+ y) = post +:+ y).
  { intros y.
    replace ((pre +:+ String "/" post) +:+ y)
      with ((pre +:+ String "/" EmptyString) +:+ (post +:+ y))
      by (by rewrite !app_assoc_str, !app_cons).
    replace (S (String.length pre))
      with (String.length (pre +:+ String "/" EmptyString))
      by (rewrite length_app_str; simpl; lia).
    rewrite (length_app_str (pre +:+ _)).
    replace (String.length (pre +:+ String "/" EmptyString)
             + String.length (post +:+ y)
             - String.length (pre +:+ String "/" EmptyString))%nat
      with (String.length (post +:+ y)) by lia.
    apply substring_drop. }
  rewrite Hcut. f_equal.
  specialize (Hcut EmptyString).
  assert (Hnil : forall z, z +:+ EmptyString = z).
  { induction z as [|c z IH]; [done|]. by rewrite app_cons, IH. }
  by rewrite !Hnil in Hcut.
Qed.

(** The suffix of a sidecar path is the checksum suffix. *)
Lemma suffix_of_sidecar p :
  PyPath.name p <> EmptyString ->
  PyPath.suffix (p +:+ ".CHECKSUM") = ".CHECKSUM".
Proof.
  intros Hname. unfold PyPath.suffix. rewrite name_app by done.
  rewrite rfind_app. change (PyStr.rfind "." ".CHECKSUM") with (Some 0%nat).
  rewrite length_app_str. change (String.length ".CHECKSUM") with 9%nat.
  assert (0 < String.length (PyPath.name p))%nat.
  { destruct (PyPath.name p); [done|simpl; lia]. }
  destruct (Nat.ltb_spec 0 (String.length (PyPath.name p) + 0)); [|lia].
  destruct (Nat.ltb_spec (String.length (PyPath.name p) + 0)
              (String.length (PyPath.name p) + 9 - 1)); [|lia].
  simpl andb. cbv iota.
  replace (String.length (PyPath.name p) + 9
           - (String.length (PyPath.name p) + 0))%nat
    with (String.length ".CHECKSUM") by (simpl; lia).
  rewrite Nat.add_0_r. apply substring_drop.
Qed.

Lemma sidecar_data_file p :
  PyPath.name p <> EmptyString ->
  PyPath.with_suffix_empty (p +:+ ".CHECKSUM") = p.
Proof.
  intros Hname. unfold PyPath.with_suffix_empty.
  rewrite (suffix_of_sidecar _ Hname), length_app_str.
  replace (String.length p + String.length ".CHECKSUM"
           - String.length ".CHECKSUM")%nat
    with (String.length p) by lia.
  apply substring_prefix.
Qed.

(** The final component is the last of the components. *)
Lemma last_components p cur :
  last (PyPath.components cur p)
  = Some match PyStr.rfind "/" p with
         | Some i => String.substring (S i) (String.length p - S i) p
         | None => cur +:+ p
         end.
Proof.
  revert cur. induction p as [|c p IH]; intros cur.
  { simpl. f_equal. clear. induction cur as [|c cur IH]; [done|].
    by rewrite app_cons, <- IH. }
  cbn [PyPath.components PyStr.rfind].
  destruct (Ascii.eqb c "/").
  - rewrite last_cons, IH.
    destruct (PyStr.rfind "/" p) as [i|]; [done|].
    simpl. by rewrite Nat.sub_0_r, substring_all.
  - rewrite IH. destruct (PyStr.rfind "/" p) as [i|]; [done|].
    by rewrite app_assoc_str, app_cons.
Qed.

(** A path in normal form has a final component. *)
Lemma normal_name p :
  PyPath.normal p = true -> PyPath.name p <> EmptyString.
Proof.
  unfold PyPath.normal. pose proof (last_components p EmptyString) as Hlast.
  change (last (PyPath.components EmptyString p) = Some (PyPath.name p))
    in Hlast.
  assert (Hkept : forall body,
            last body = Some (PyPath.name p) ->
            forallb PyPath.kept body = true ->
            PyPath.name p <> EmptyString).
  { intros body (front & ->)%last_Some.
    rewrite forallb_app. intros [_ Hk]%andb_true_iff Hempty.
    rewrite Hempty in Hk. done. }
  destruct (PyPath.components EmptyString p) as [|a rest]; [done|].
  destruct a as [|c a].
  - destruct rest as [|b rest]; [done|].
    destruct b as [|c b].
    + destruct rest as [|d rest]; [done|]. by apply Hkept.
    + by apply Hkept.
  - by apply Hkept.
Qed.

(** The sidecar path the single-file entry point derives from a data file
    is a path the directory worker maps back to that data file, for every
    path in the normal form of [pathlib]. *)
Theorem sidecar_path_round_trip p :
  PyPath.normal p = true ->
  PyPath.suffix (p +:+ ".CHECKSUM") = ".CHECKSUM"
  /\ PyPath.with_suffix_empty (p +:+ ".CHECKSUM") = p
  /\ path (verify_single_file_worker (p +:+ ".CHECKSUM")) = p.
Proof.
  intros Hname%normal_name. split; [by apply suffix_of_sidecar|].
  pose proof (sidecar_data_file p Hname) as Hdata. split; [done|].
  unfold verify_single_file_worker. rewrite Hdata.
  destruct (negb (fs_exists p)); [done|].
  destruct (falsy (read_checksum_file _)); [done|].
  destruct (falsy (calculate_sha256 p)); [done|].
  by destruct (same_digest _ _).
Qed.

(** The single-file entry point accepts a data file exactly when its
    sidecar is there and the directory worker classifies that sidecar as
    verified. *)
Theorem single_file_agrees_with_worker p :
  PyPath.name p <> EmptyString ->
  verify_single_file p = true
  <-> fs_exists (p +:+ ".CHECKSUM") = true
      /\ status (verify_single_file_worker (p +:+ ".CHECKSUM")) = verified.
Proof.
  intros Hname. unfold verify_single_file, verify_single_file_worker.
  rewrite (sidecar_data_file p Hname).
  destruct (fs_exists p); simpl; [|by split; [|intros [_ ?]]].
  destruct (fs_exists (p +:+ ".CHECKSUM")); simpl; [|by split; [|intros [? _]]].
  destruct (falsy (read_checksum_file _)); simpl; [by split; [|intros [_ ?]]|].
  destruct (falsy (calculate_sha256 p)); simpl; [by split; [|intros [_ ?]]|].
  destruct (same_digest _ _); simpl; [done|by split; [|intros [_ ?]]].
Qed.

End FurtherFacts.

Section FurtherChecks.

Context `{Hashlib} `{Host}.

(** *** The sidecar *)

Lemma first_token_none line :
  first_token (PyStr.strip line) = None <-> PyStr.blank line = true.
Proof.
  destruct (PyStr.blank line) eqn:Hb.
  - split; [done|]. intros _. unfold first_token.
    by rewrite strip_truthy, Hb.
  - destruct (first_token_some _ Hb) as (t & -> & _). by split.
Qed.

Lemma read_checksum_file_sound p t :
  read_checksum_file p = Some t -> sidecar_digest p t.
Proof.
  unfold read_checksum_file, sidecar_digest.
  destruct (fs_read_text p) as [text|]; [|done]. intros Ht.
  exists text. split; [done|].
  destruct (PyStr.blank (PyStr.readline text)) eqn:Hb.
  { apply first_token_none in Hb. congruence. }
  destruct (first_word_exists _ Hb) as [e He].
  rewrite (first_token_first_word _ _ He) in Ht. by injection Ht as <-.
Qed.

(** [read_checksum_file] returns the first white-space delimited token of
    the first line of the sidecar, and [None] exactly when the sidecar
    cannot be read or its first line holds no token; the token it returns
    is never empty and holds no white space. *)
Theorem read_checksum_file_token p :
  (forall t, read_checksum_file p = Some t <-> sidecar_digest p t)
  /\ (read_checksum_file p = None <-> sidecar_unusable p)
  /\ (forall t, read_checksum_file p = Some t ->
      PyStr.truthy t = true /\ PyStr.no_space t = true).
Proof.
  split; [|split].
  - intros t. split; [apply read_checksum_file_sound|].
    by intros [? _]%read_checksum_file_digest.
  - unfold read_checksum_file, sidecar_unusable.
    destruct (fs_read_text p) as [text|]; [|by split; [left|]].
    rewrite first_token_none. split.
    + intros Hb. right. by exists text.
    + by intros [?|(? & [= <-] & ?)].
  - intros t (text & _ & pre & post & _ & _ & Ht & Hns & _)%read_checksum_file_sound.
    done.
Qed.

Lemma blank_readline lead rest :
  PyStr.blank lead = true ->
  PyStr.blank (PyStr.readline (lead +:+ nl +:+ rest)) = true.
Proof.
  induction lead as [|c lead IH]; [done|]. rewrite app_cons. simpl.
  intros [Hc Hlead]%andb_true_iff.
  destruct (Ascii.eqb c "010" || Ascii.eqb c "013"); [done|].
  simpl. by rewrite Hc, IH.
Qed.

(** Only the first line of a sidecar counts: when that line is blank the
    sidecar gives no digest, whatever the later lines hold. *)
Theorem blank_first_line_hides_digest p lead rest :
  fs_read_text p = Some (lead +:+ nl +:+ rest) ->
  PyStr.blank lead = true ->
  read_checksum_file p = None
  /\ (fs_exists (PyPath.with_suffix_empty p) = true ->
      status (verify_single_file_worker p) = invalid_checksum).
Proof.
  intros Htext Hlead.
  assert (Hnone : read_checksum_file p = None).
  { unfold read_checksum_file. rewrite Htext.
    by apply first_token_none, blank_readline. }
  split; [done|]. intros Hdata. unfold verify_single_file_worker.
  by rewrite Hdata, Hnone.
Qed.

(** *** The counters of the two passes *)

Lemma pass_counters_from l cs cp :
  let cs' := fold_left tally_sequential l cs in
  let cp' := fold_left tally_parallel (map verify_single_file_worker l) cp in
  sum_counts cs' = sum_counts cs + Z.of_nat (length l)
  /\ n_verified cp' - n_verified cp = n_verified cs' - n_verified cs
  /\ n_missing cp' - n_missing cp = n_missing cs' - n_missing cs
  /\ n_failed cs' - n_failed cs
     = n_failed cp' - n_failed cp
       + Z.of_nat (length (List.filter
                             (fun p => uncounted
                                         (status (verify_single_file_worker p)))
                             l)).
Proof.
  revert cs cp. induction l as [|p l IH]; intros cs cp; simpl.
  { unfold sum_counts. lia. }
  specialize (IH (tally_sequential cs p)
                 (tally_parallel cp (verify_single_file_worker p))).
  simpl in IH. destruct IH as (IH1 & IH2 & IH3 & IH4).
  rewrite tally_sequential_spec in *. unfold tally_parallel in *.
  pose proof (worker_status_known p) as Hknown.
  unfold sum_counts in *.
  destruct (status (verify_single_file_worker p)); try done;
    simpl in *; lia.
Qed.

(** The sequential loop counts every sidecar exactly once.  The parallel
    loop reaches the same verified and missing counters, and its failed
    counter falls short of the sequential one by the number of sidecars
    classified invalid_checksum or read_error. *)
Theorem pass_counters l :
  let cs := fold_left tally_sequential l no_counts in
  let cp := fold_left tally_parallel (map verify_single_file_worker l)
              no_counts in
  sum_counts cs = Z.of_nat (length l)
  /\ n_verified cp = n_verified cs
  /\ n_missing cp = n_missing cs
  /\ n_failed cs
     = n_failed cp
       + Z.of_nat (length (List.filter
                             (fun p => uncounted
                                         (status (verify_single_file_worker p)))
                             l)).
Proof.
  intros cs cp. subst cs cp.
  destruct (pass_counters_from l no_counts no_counts) as (H1 & H2 & H3 & H4).
  simpl in *. unfold sum_counts in *. simpl in *. lia.
Qed.

End FurtherChecks.

Section FurtherDigests.

Context `{Hashlib} `{Host}.

(** [hashlib]: feeding a hash object piece by piece is feeding it the
    concatenation, and a hexadecimal digest is never empty. *)
Hypothesis update_nil : forall h, sha256_update h [] = h.
Hypothesis update_app : forall h a b,
  sha256_update (sha256_update h a) b = sha256_update h (a ++ b).
Hypothesis hexdigest_truthy : forall h,
  PyStr.truthy (sha256_hexdigest h) = true.

(** *** The digest *)

(** [calculate_sha256] returns the digest of the whole content, however
    many chunks of 4096 bytes it is read in, and [None] exactly when the
    file cannot be read. *)
Theorem calculate_sha256_whole_content p :
  calculate_sha256 p
  = (fun data => sha256_hexdigest (sha256_update sha256_new data))
      <$> fs_read_bytes p.
Proof.
  destruct (fs_read_bytes p) as [data|] eqn:Hdata.
  - rewrite (calculate_sha256_read _ _ Hdata).
    by rewrite (update_chunks_whole update_nil update_app) by lia.
  - unfold calculate_sha256. by rewrite Hdata.
Qed.

Lemma calculate_sha256_falsy p :
  falsy (calculate_sha256 p) = true <-> fs_read_bytes p = None.
Proof.
  destruct (fs_read_bytes p) as [data|] eqn:Hdata.
  - rewrite (calculate_sha256_read _ _ Hdata). unfold falsy.
    rewrite hexdigest_truthy. by split.
  - unfold calculate_sha256. by rewrite Hdata.
Qed.

(** *** The report of the worker *)

(** A result names its data file.  A verified or corrupted result carries
    the token of the sidecar and the digest of the content, which agree up
    to case in the first case and differ in the second; every other result
    carries two empty digests. *)
Theorem report_fields p :
  let data_file := PyPath.with_suffix_empty p in
  let r := verify_single_file_worker p in
  path r = data_file /\ file r = PyPath.name data_file
  /\ (status r = verified ->
      sidecar_digest p (expected r) /\ file_digest data_file (actual r)
      /\ PyStr.lower (expected r) = PyStr.lower (actual r))
  /\ (status r = corrupted ->
      sidecar_digest p (expected r) /\ file_digest data_file (actual r)
      /\ PyStr.lower (expected r) <> PyStr.lower (actual r))
  /\ (status r <> verified -> status r <> corrupted ->
      expected r = EmptyString /\ actual r = EmptyString).
Proof.
  intros data_file r. subst r. unfold verify_single_file_worker.
  fold data_file.
  destruct (fs_exists data_file); simpl; [|by repeat split].
  destruct (read_checksum_file p) as [e|] eqn:He; simpl; [|by repeat split].
  destruct (PyStr.truthy e); simpl; [|by repeat split].
  destruct (calculate_sha256 data_file) as [a|] eqn:Ha; simpl;
    [|by repeat split].
  destruct (PyStr.truthy a); simpl; [|by repeat split].
  apply read_checksum_file_sound in He.
  apply (calculate_sha256_digest update_nil update_app) in Ha.
  unfold same_digest.
  destruct (String.eqb_spec (PyStr.lower e) (PyStr.lower a)); simpl;
    by repeat split.
Qed.

(** The status of a result names its cause: missing means that the data
    file is absent, invalid_checksum that it is there and the sidecar gives
    no digest, read_error that both are there and the content cannot be
    read. *)
Theorem status_names_cause p :
  let data_file := PyPath.with_suffix_empty p in
  let r := verify_single_file_worker p in
  (status r = missing <-> fs_exists data_file = false)
  /\ (status r = invalid_checksum <->
      fs_exists data_file = true /\ sidecar_unusable p)
  /\ (status r = read_error <->
      fs_exists data_file = true /\ ~ sidecar_unusable p
      /\ fs_read_bytes data_file = None).
Proof.
  intros data_file r. subst r. unfold verify_single_file_worker.
  fold data_file. rewrite read_checksum_file_unusable.
  rewrite <- calculate_sha256_falsy.
  destruct (fs_exists data_file); simpl; [|by repeat split; try intros [? _]].
  destruct (falsy (read_checksum_file p)); simpl.
  { repeat split; try done. by intros (_ & ? & _). }
  destruct (falsy (calculate_sha256 data_file)); simpl.
  { repeat split; try done. by intros [_ ?]. }
  destruct (same_digest _ _); simpl;
    repeat split; try done; try (by intros [_ ?]); by intros (_ & _ & ?).
Qed.

End FurtherDigests.

(** *** The further facts on the sample tree *)

Lemma counting_update_nil (h : N) : (h + N.of_nat (length (@nil Byte.byte)))%N = h.
Proof. simpl. lia. Qed.

Lemma counting_update_app (h : N) (a b : list Byte.byte) :
  (h + N.of_nat (length a) + N.of_nat (length b))%N
  = (h + N.of_nat (length (a ++ b)))%N.
Proof. rewrite length_app. lia. Qed.

Lemma sidecar_path_round_trip_witness :
  PyPath.with_suffix_empty ("data/a.zip" +:+ ".CHECKSUM") = "data/a.zip"
  /\ path (sample_worker ("data/a.zip" +:+ ".CHECKSUM")) = "data/a.zip".
Proof.
  destruct (@sidecar_path_round_trip sample_hashlib sample_host "data/a.zip")
    as (_ & Hback & Hpath).
  - reflexivity.
  - split; [exact Hback|exact Hpath].
Defined.

Lemma single_file_agrees_with_worker_witness :
  @verify_single_file sample_hashlib sample_host "data/a.zip" = true
  /\ @verify_single_file sample_hashlib sample_host "data/b.zip" <> true.
Proof.
  split.
  - apply (@single_file_agrees_with_worker sample_hashlib sample_host
             "data/a.zip").
    + vm_compute. discriminate.
    + split; reflexivity.
  - intros Hb.
    apply (@single_file_agrees_with_worker sample_hashlib sample_host
             "data/b.zip") in Hb as [_ Hb].
    + vm_compute in Hb. discriminate.
    + vm_compute. discriminate.
Defined.

Lemma blank_first_line_hides_digest_witness :
  @read_checksum_file sample_host "data/d.zip.CHECKSUM" = None
  /\ status (sample_worker "data/d.zip.CHECKSUM") = invalid_checksum.
Proof.
  destruct (@blank_first_line_hides_digest sample_hashlib sample_host
              "data/d.zip.CHECKSUM" EmptyString ("abc123  d.zip" +:+ nl))
    as [Hnone Hstatus].
  - reflexivity.
  - reflexivity.
  - split; [exact Hnone|]. apply Hstatus. reflexivity.
Defined.

Lemma calculate_sha256_whole_content_witness :
  @calculate_sha256 counting_hashlib big_host "big.bin" = Some "5000"
  /\ @calculate_sha256 counting_hashlib big_host "none.bin" = None.
Proof.
  split.
  - rewrite (@calculate_sha256_whole_content counting_hashlib big_host
               counting_update_nil counting_update_app "big.bin").
    vm_compute. reflexivity.
  - rewrite (@calculate_sha256_whole_content counting_hashlib big_host
               counting_update_nil counting_update_app "none.bin").
    reflexivity.
Defined.

Lemma report_fields_witness :
  sidecar_digest (H0 := sample_host) "data/b.zip.CHECKSUM"
    (expected (sample_worker "data/b.zip.CHECKSUM"))
  /\ expected (sample_worker "data/c.zip.CHECKSUM") = EmptyString.
Proof.
  split.
  - apply (@report_fields sample_hashlib sample_host (@app_nil_r _)
             sample_update_app "data/b.zip.CHECKSUM"). reflexivity.
  - apply (@report_fields sample_hashlib sample_host (@app_nil_r _)
             sample_update_app "data/c.zip.CHECKSUM"); discriminate.
Defined.

Lemma status_names_cause_witness :
  @fs_exists sample_host "data/c.zip" = false
  /\ @fs_read_bytes sample_host "data/e.zip" = None.
Proof.
  split.
  - apply (@status_names_cause sample_hashlib sample_host
             sample_hexdigest_nonempty "data/c.zip.CHECKSUM"). reflexivity.
  - apply (@status_names_cause sample_hashlib sample_host
             sample_hexdigest_nonempty "data/e.zip.CHECKSUM"). reflexivity.
Defined.

End VerifyFacts.

(** ** Facts on download-kline.py *)

Module DownloadFacts.
Import Download.
Local Open Scope py_scope.

Section Facts.

Context `{Utility} `{SetOrder}.

(** *** The tracker *)

(** Runs the plumbing of a computation down to its calls. *)
Ltac run_monad :=
  repeat (progress (unfold bind, ret, raise, lift, get_tracker, put_tracker,
                      get_world, put_world, is_file_complete,
                      append_failed_file;
                    cbv beta iota zeta)).

Lemma print_progress_ok s :
  total (tracker s) <> 0 -> _print_progress s = (s, Ret tt).
Proof.
  intros Ht. unfold _print_progress, bind, get_tracker, raise, ret.
  destruct (_ || _); [|done].
  by destruct (Z.eqb_spec (total (tracker s)) 0).
Qed.

Lemma mark_completed_ok name s :
  total (tracker s) <> 0 ->
  mark_completed name s = (with_tracker add_completed s, Ret tt).
Proof.
  intros Ht. unfold mark_completed, bind, get_tracker, put_tracker.
  by rewrite print_progress_ok.
Qed.

Lemma mark_failed_ok name s :
  total (tracker s) <> 0 ->
  mark_failed name s = (with_tracker add_failed s, Ret tt).
Proof.
  intros Ht. unfold mark_failed, bind, get_tracker, put_tracker.
  by rewrite print_progress_ok.
Qed.

Lemma mark_skipped_ok name s :
  total (tracker s) <> 0 ->
  mark_skipped name s = (with_tracker add_skipped s, Ret tt).
Proof.
  intros Ht. unfold mark_skipped, bind, get_tracker, put_tracker.
  by rewrite print_progress_ok.
Qed.

(** The [except] block on a tracker with a total. *)
Lemma record_failure_ok info e s :
  total (tracker s) <> 0 ->
  record_failure info e s
  = (with_tracker (fun t => add_failed (add_failed_file (task_id info) t)) s,
     Ret false).
Proof.
  intros Ht. unfold record_failure. run_monad.
  by rewrite mark_failed_ok.
Qed.

(** *** The worker, case by case *)

Lemma call_download_file_run path name range dir s :
  call_download_file path name range dir s
  = (let r := download_file path name range dir (world s) in
     ({| tracker := tracker s; world := logged (world s) r.1 path name |},
      r.2)).
Proof.
  unfold call_download_file, bind, get_world.
  by destruct (download_file path name range dir (world s)).
Qed.

Lemma worker_bad_date info s e :
  convert_to_date_object (date info) = Exc e ->
  download_single_kline_file info s = (s, Exc e).
Proof.
  intros Hd. unfold download_single_kline_file, bind, lift. by rewrite Hd.
Qed.

Lemma worker_out_of_range info s current_date :
  convert_to_date_object (date info) = Ret current_date ->
  in_range info current_date = false ->
  download_single_kline_file info s = (s, Ret true).
Proof.
  intros Hd Hr. unfold download_single_kline_file, bind, lift.
  by rewrite Hd, Hr.
Qed.

Lemma worker_in_range info s current_date :
  convert_to_date_object (date info) = Ret current_date ->
  in_range info current_date = true ->
  download_single_kline_file info s
  = try_except (try_download info) (record_failure info) s.
Proof.
  intros Hd Hr. unfold download_single_kline_file, bind, lift.
  by rewrite Hd, Hr.
Qed.

Lemma try_download_complete info s :
  total (tracker s) <> 0 ->
  file_complete (world s) (full_path info (world s)) = true ->
  try_download info s = (with_tracker add_skipped s, Ret true).
Proof.
  intros Ht Hc.
  unfold try_download. run_monad.
  rewrite Hc. by rewrite mark_skipped_ok.
Qed.

(** The [try] block when the data file is not there yet, with the
    plumbing run: the data transfer, then the sidecar transfer when it is
    asked for and the sidecar is not there, then the mark. *)
Lemma try_download_transfer info s :
  total (tracker s) <> 0 ->
  file_complete (world s) (full_path info (world s)) = false ->
  try_download info s
  = let path := get_path (trading_type info) "klines" "daily" (symbol info)
                  (interval info) in
    let r1 := download_file path
                (zip_name (symbol info) (interval info) (date info))
                (date_range info) (folder info) (world s) in
    let w1 := logged (world s) r1.1 path
                (zip_name (symbol info) (interval info) (date info)) in
    match r1.2 with
    | Exc e => ({| tracker := tracker s; world := w1 |}, Exc e)
    | Ret _ =>
        if (checksum info =? 1)
           && negb (file_complete w1 (checksum_full_path info w1))
        then
          let r2 := download_file path
                      (checksum_name (symbol info) (interval info)
                         (date info))
                      (date_range info) (folder info) w1 in
          let w2 := logged w1 r2.1 path
                      (checksum_name (symbol info) (interval info)
                         (date info)) in
          match r2.2 with
          | Exc e => ({| tracker := tracker s; world := w2 |}, Exc e)
          | Ret _ =>
              ({| tracker := add_completed (tracker s); world := w2 |},
               Ret true)
          end
        else
          ({| tracker := add_completed (tracker s); world := w1 |}, Ret true)
    end.
Proof.
  intros Ht Hc. unfold try_download. run_monad. rewrite Hc. clear Hc.
  rewrite call_download_file_run. cbv beta iota zeta.
  destruct (download_file _ _ _ _ (world s)) as [files1 [[]|e]];
    [|done].
  cbn [fst snd]. destruct (checksum info =? 1); cbn [andb].
  - run_monad. cbn [world tracker].
    destruct (file_complete _ _); cbn [negb].
    + by rewrite mark_completed_ok.
    + rewrite call_download_file_run. cbv beta iota zeta. cbn [world files logged].
      destruct (download_file _ _ _ _ _) as [files2 [[]|e]]; [|done].
      cbn [fst snd]. by rewrite mark_completed_ok.
  - run_monad. by rewrite mark_completed_ok.
Qed.

(** Every call of the worker on a tracker with a total resolves its task in
    one of the five ways. *)
Lemma worker_resolved info s :
  total (tracker s) <> 0 ->
  resolved info s (download_single_kline_file info s).
Proof.
  intros Ht.
  destruct (convert_to_date_object (date info)) as [d|e] eqn:Hd.
  2: { rewrite (worker_bad_date _ _ _ Hd). by constructor. }
  destruct (in_range info d) eqn:Hr.
  2: { rewrite (worker_out_of_range _ _ _ Hd Hr). by econstructor. }
  assert (Htask : task_in_range info = true).
  { unfold task_in_range. by rewrite Hd. }
  rewrite (worker_in_range _ _ _ Hd Hr). unfold try_except.
  destruct (file_complete (world s) (full_path info (world s))) eqn:Hc.
  { rewrite (try_download_complete _ _ Ht Hc). by constructor. }
  rewrite (try_download_transfer _ _ Ht Hc). cbv zeta.
  destruct (download_file _ _ _ _ (world s)) as [files1 [[]|e]];
    cbn [fst snd].
  2: { rewrite record_failure_ok by done. by apply (resolved_failed info s). }
  destruct (_ && _).
  2: { by apply resolved_completed. }
  destruct (download_file _ _ _ _ _) as [files2 [[]|e]]; cbn [fst snd].
  - by apply resolved_completed.
  - rewrite record_failure_ok by done. by apply (resolved_failed info s).
Qed.

Lemma try_download_raise info s s1 e :
  total (tracker s) <> 0 ->
  try_download info s = (s1, Exc e) ->
  tracker s1 = tracker s
  /\ file_complete (world s) (full_path info (world s)) = false.
Proof.
  intros Ht.
  destruct (file_complete (world s) (full_path info (world s))) eqn:Hc.
  { by rewrite (try_download_complete _ _ Ht Hc). }
  rewrite (try_download_transfer _ _ Ht Hc). cbv zeta.
  destruct (download_file _ _ _ _ (world s)) as [files1 [[]|e1]];
    cbn [fst snd].
  2: { by intros [= <- _]. }
  destruct (_ && _); [|done].
  destruct (download_file _ _ _ _ _) as [files2 [[]|e2]];
    cbn [fst snd]; [done|].
  by intros [= <- _].
Qed.

(** C8. A task whose date lies outside the inclusive range makes the worker
    return true and leave the state as it was: no counter of the tracker and
    no entry of the failed-items list changes, no file changes and the
    transfer primitive is not called. *)
Theorem out_of_range_is_silent info s current_date :
  convert_to_date_object (date info) = Ret current_date ->
  in_range info current_date = false ->
  download_single_kline_file info s = (s, Ret true).
Proof.
  intros Hdate Hout. unfold download_single_kline_file. run_monad.
  rewrite Hdate. cbv beta iota. by rewrite Hout.
Qed.

(** C5, as the code has it.  The conversion of the day string runs before
    the [try] block: when it raises, the exception leaves the worker and the
    state is untouched.  For a task whose day string converts to a date and
    a tracker with a total other than zero, the worker returns and does not
    raise, whatever the transfer primitive does.  It returns false exactly
    when its [try] block raised, and then the surroundings are as the block
    left them, the identifier of the task is appended to the failed-items
    list and the failed counter is one higher. *)
Theorem worker_catches_failures info s :
  (forall e,
     convert_to_date_object (date info) = Exc e ->
     download_single_kline_file info s = (s, Exc e))
  /\ (forall current_date,
       convert_to_date_object (date info) = Ret current_date ->
       total (tracker s) <> 0 ->
       exists s' b,
         download_single_kline_file info s = (s', Ret b)
         /\ (b = false <->
             in_range info current_date = true
             /\ exists s1 e, try_download info s = (s1, Exc e))
         /\ (forall s1 e,
               in_range info current_date = true ->
               try_download info s = (s1, Exc e) ->
               world s' = world s1
               /\ tracker s'
                  = add_failed (add_failed_file (task_id info) (tracker s)))).
Proof.
  split; [apply worker_bad_date|]. intros current_date Hd Ht.
  destruct (in_range info current_date) eqn:Hr.
  2: { exists s, true. rewrite (worker_out_of_range _ _ _ Hd Hr).
       split; [done|]. split; [|done]. split; [done|by intros [? _]]. }
  rewrite (worker_in_range _ _ _ Hd Hr). unfold try_except.
  destruct (try_download info s) as [s1 [b|e]] eqn:Htry.
  - exists s1, b. split; [done|]. split; [|done].
    split; [|by intros (_ & ? & ? & ?)].
    intros ->. exfalso. revert Htry.
    destruct (file_complete (world s) (full_path info (world s))) eqn:Hc.
    { by rewrite (try_download_complete _ _ Ht Hc). }
    rewrite (try_download_transfer _ _ Ht Hc). cbv zeta.
    destruct (download_file _ _ _ _ (world s)) as [f1 [[]|e1]];
      cbn [fst snd]; [|done].
    destruct (_ && _); [|done].
    by destruct (download_file _ _ _ _ _) as [f2 [[]|e2]].
  - destruct (try_download_raise _ _ _ _ Ht Htry) as [Htr _].
    assert (Ht1 : total (tracker s1) <> 0) by by rewrite Htr.
    rewrite (record_failure_ok _ _ _ Ht1).
    eexists _, false. split; [done|]. split.
    + split; [|done]. intros _. split; [done|]. by exists s1, e.
    + intros s2 e2 _ [= <- _]. unfold with_tracker. simpl. by rewrite Htr.
Qed.

(** C7, as the code has it.  For a task within its range with the checksum
    flag set, whose data file is not there, whose data transfer returns and
    whose sidecar is not there either, the sidecar transfer decides.  When
    it raises the task fails: the worker returns false, the identifier is
    appended to the failed-items list, the failed counter is one higher and
    the completed counter is unchanged.  When it returns, whatever it left
    behind, the task is marked completed and the worker returns true. *)
Theorem checksum_fetch_decides_task info s current_date files1 files2 r :
  let path := get_path (trading_type info) "klines" "daily" (symbol info)
                (interval info) in
  let file_name := zip_name (symbol info) (interval info) (date info) in
  let checksum_file_name :=
    checksum_name (symbol info) (interval info) (date info) in
  let w1 := logged (world s) files1 path file_name in
  let w2 := logged w1 files2 path checksum_file_name in
  convert_to_date_object (date info) = Ret current_date ->
  in_range info current_date = true ->
  total (tracker s) <> 0 ->
  checksum info = 1 ->
  file_complete (world s) (full_path info (world s)) = false ->
  download_file path file_name (date_range info) (folder info) (world s)
  = (files1, Ret tt) ->
  file_complete w1 (checksum_full_path info w1) = false ->
  download_file path checksum_file_name (date_range info) (folder info) w1
  = (files2, r) ->
  download_single_kline_file info s
  = match r with
    | Exc _ =>
        ({| tracker := add_failed
                         (add_failed_file (task_id info) (tracker s));
            world := w2 |}, Ret false)
    | Ret _ =>
        ({| tracker := add_completed (tracker s); world := w2 |}, Ret true)
    end.
Proof.
  intros path file_name checksum_file_name w1 w2 Hd Hr Ht Hk Hc H1 Hc1 H2.
  rewrite (worker_in_range _ _ _ Hd Hr). unfold try_except.
  rewrite (try_download_transfer _ _ Ht Hc). cbv zeta.
  fold path file_name checksum_file_name. rewrite H1. cbn [fst snd].
  fold w1. rewrite Hk, Hc1. cbn [Z.eqb Pos.eqb andb negb].
  rewrite H2. cbn [fst snd]. fold w2.
  destruct r as [[]|e]; [done|]. by rewrite record_failure_ok.
Qed.

(** C10, as the code has it.  For a task within its range with the checksum
    flag set whose data file is there with a size above zero, the worker
    marks the task skipped and returns true; the surroundings stay as they
    were, so the sidecar is not fetched, whether it is there or not. *)
Theorem complete_file_skips_sidecar info s current_date :
  convert_to_date_object (date info) = Ret current_date ->
  in_range info current_date = true ->
  total (tracker s) <> 0 ->
  checksum info = 1 ->
  file_complete (world s) (full_path info (world s)) = true ->
  download_single_kline_file info s = (with_tracker add_skipped s, Ret true).
Proof.
  intros Hd Hr Ht _ Hc. rewrite (worker_in_range _ _ _ Hd Hr).
  unfold try_except. by rewrite (try_download_complete _ _ Ht Hc).
Qed.

(** *** The batch *)

Lemma in_range_count_remove before info after :
  in_range_count (before ++ info :: after)
  = in_range_count (before ++ after)
    + (if task_in_range info then 1 else 0).
Proof.
  unfold in_range_count. rewrite !List.filter_app. simpl.
  destruct (task_in_range info); rewrite !length_app; simpl; lia.
Qed.

Lemma in_range_count_le l : in_range_count l <= Z.of_nat (length l).
Proof.
  unfold in_range_count. pose proof (List.filter_length_le task_in_range l).
  lia.
Qed.

Lemma in_range_count_all l :
  in_range_count l = Z.of_nat (length l)
  <-> Forall (fun info => task_in_range info = true) l.
Proof.
  unfold in_range_count. induction l as [|info l IH]; simpl.
  { split; [constructor|done]. }
  pose proof (List.filter_length_le task_in_range l) as Hle.
  rewrite Forall_cons. destruct (task_in_range info); simpl.
  - rewrite <- IH. split; [intros ?; split; [done|lia]|intros [_ ?]; lia].
  - split; [lia|by intros [? _]].
Qed.

Lemma new_tracker_inv queue :
  tracker_inv queue queue (new_tracker (Z.of_nat (length queue))).
Proof. unfold tracker_inv, processed. simpl. lia. Qed.

(** One resolved task keeps the invariant. *)
Lemma step_keeps_inv queue c c' :
  step c c' ->
  tracker_inv queue c.1 (tracker c.2) -> tracker_inv queue c'.1 (tracker c'.2).
Proof.
  intros [before info after s]. unfold tracker_inv, processed. simpl.
  rewrite in_range_count_remove, !length_app. simpl.
  intros (Htot & Hc & Hf & Hs & Hcount & Hbound & Hlen).
  assert (Ht : total (tracker s) <> 0) by lia.
  destruct (worker_resolved info s Ht) as [e He|d Hd Hr|Hin Hfile|w' Hin Hfile
                                            |w' Hin Hfile]; simpl.
  - unfold task_in_range in Hcount. rewrite He in Hcount. lia.
  - unfold task_in_range in Hcount. rewrite Hd, Hr in Hcount. lia.
  - rewrite Hin in Hcount. lia.
  - rewrite Hin in Hcount. lia.
  - rewrite Hin in Hcount. rewrite length_app. simpl. lia.
Qed.

Lemma reachable_inv queue w pending s :
  rtc step (queue, {| tracker := new_tracker (Z.of_nat (length queue));
                      world := w |}) (pending, s) ->
  tracker_inv queue pending (tracker s).
Proof.
  intros Hrun.
  change (tracker_inv queue (pending, s).1 (tracker (pending, s).2)).
  revert Hrun. generalize (pending, s). apply rtc_ind_r.
  - apply new_tracker_inv.
  - intros c c' _ Hstep IH. by apply (step_keeps_inv queue c).
Qed.

(** Awaiting the futures in the order of the queue is one of the runs, and
    it resolves every task. *)
Lemma run_queue_steps l s : rtc step (l, s) ([], run_queue l s).
Proof.
  revert s. induction l as [|info l IH]; intros s; simpl; [done|].
  eapply rtc_l; [|apply IH]. apply (step_task [] info l s).
Qed.

(** C4, as the code has it.  In every state a batch on [queue] reaches, in
    whatever order its tasks resolve, the total is the length of the queue
    and completed+failed+skipped is at most the total.  Once no task is
    pending the sum is the number of queued tasks whose date lies within the
    range, so it is the total exactly when every queued task does. *)
Theorem tracker_bounded queue w pending s :
  rtc step (queue, {| tracker := new_tracker (Z.of_nat (length queue));
                      world := w |}) (pending, s) ->
  total (tracker s) = Z.of_nat (length queue)
  /\ processed (tracker s) <= total (tracker s)
  /\ (pending = [] -> processed (tracker s) = in_range_count queue)
  /\ (pending = [] ->
      processed (tracker s) = total (tracker s)
      <-> Forall (fun info => task_in_range info = true) queue).
Proof.
  intros (Htot & Hc & Hf & Hs & Hcount & Hbound & Hlen)%reachable_inv.
  split; [done|]. split; [lia|].
  assert (Hdone : pending = [] -> processed (tracker s) = in_range_count queue).
  { intros ->. unfold in_range_count in Hcount at 1. simpl in Hcount. lia. }
  split; [done|]. intros Hp. rewrite (Hdone Hp), Htot.
  rewrite <- in_range_count_all. lia.
Qed.

(** *** A second run *)

(** The tracker after [n] more skipped files. *)
Lemma all_complete_steps l s0 pending s :
  rtc step (l, s0) (pending, s) ->
  total (tracker s0) <> 0 ->
  Forall (fun info =>
            task_in_range info = true
            /\ file_complete (world s0) (full_path info (world s0)) = true)
         l ->
  world s = world s0
  /\ total (tracker s) = total (tracker s0)
  /\ completed (tracker s) = completed (tracker s0)
  /\ failed (tracker s) = failed (tracker s0)
  /\ failed_files (tracker s) = failed_files (tracker s0)
  /\ skipped (tracker s) + Z.of_nat (length pending)
     = skipped (tracker s0) + Z.of_nat (length l)
  /\ Forall (fun info => In info l) pending.
Proof.
  intros Hrun Ht Hall.
  change (world (pending, s).2 = world s0
    /\ total (tracker (pending, s).2) = total (tracker s0)
    /\ completed (tracker (pending, s).2) = completed (tracker s0)
    /\ failed (tracker (pending, s).2) = failed (tracker s0)
    /\ failed_files (tracker (pending, s).2) = failed_files (tracker s0)
    /\ skipped (tracker (pending, s).2) + Z.of_nat (length (pending, s).1)
       = skipped (tracker s0) + Z.of_nat (length l)
    /\ Forall (fun info => In info l) (pending, s).1).
  revert Hrun. generalize (pending, s). apply rtc_ind_r.
  - simpl. repeat split; try done.
    apply Forall_forall. by intros ? ?%list_elem_of_In.
  - intros c c' _ Hstep IH.
    destruct Hstep as [before info after s1]. simpl in *.
    destruct IH as (Hw & Htot & Hc & Hf & Hff & Hs & Hin).
    apply Forall_app in Hin as [Hbefore Hafter].
    apply Forall_cons in Hafter as [Hinfo Hafter].
    rewrite Forall_forall in Hall.
    destruct (Hall info (proj2 (list_elem_of_In _ _) Hinfo)) as [Hr Hfile].
    unfold task_in_range in Hr.
    destruct (convert_to_date_object (date info)) as [d|] eqn:Hd; [|done].
    rewrite (worker_in_range _ _ _ Hd Hr). unfold try_except.
    rewrite try_download_complete; [|congruence|by rewrite Hw].
    unfold with_tracker. simpl. rewrite length_app in *. simpl in *.
    repeat split; try done; try lia.
    by apply Forall_app.
Qed.

(** C6, as the code has it.  Take a destination on which every queued task
    lies within its range and has its data file there with a size above
    zero, as a first run leaves it when all its tasks lie within the range
    and all its transfers store their file.  A run with a queue that is not
    empty and with at least one worker marks every task skipped: it reports
    skipped = total, completed = 0 and failed = 0.  A run with an empty
    queue reports nothing, and a run with a queue and no worker raises
    [ValueError] before a task is started.  In each case the surroundings
    stay as they were, so the transfer primitive is not called. *)
Theorem second_run_skips_all trading_type symbols num_symbols intervals
    dates start_date end_date folder checksum max_workers w1 queue :
  let run := download_daily_klines trading_type symbols num_symbols intervals
               dates start_date end_date folder checksum max_workers in
  daily_queue trading_type symbols intervals dates start_date end_date
    folder checksum = Ret queue ->
  Forall (fun info =>
            task_in_range info = true
            /\ file_complete w1 (full_path info w1) = true) queue ->
  (queue = [] -> run w1 = (w1, Ret None))
  /\ (queue <> [] -> max_workers <= 0 -> run w1 = (w1, Exc "ValueError"))
  /\ (queue <> [] -> 0 < max_workers ->
      exists t,
        run w1 = (w1, Ret (Some t))
        /\ total t = Z.of_nat (length queue)
        /\ skipped t = total t /\ completed t = 0 /\ failed t = 0
        /\ failed_files t = []).
Proof.
  intros run Hqueue Hall. subst run.
  unfold download_daily_klines. rewrite Hqueue.
  split; [by intros ->|].
  assert (Hlen : queue <> [] -> (Z.of_nat (length queue) =? 0) = false).
  { intros Hne. apply Z.eqb_neq. destruct queue; [done|]. simpl. lia. }
  split.
  - intros Hne Hworkers. rewrite (Hlen Hne).
    by destruct (Z.leb_spec max_workers 0); [|lia].
  - intros Hne Hworkers. rewrite (Hlen Hne).
    destruct (Z.leb_spec max_workers 0); [lia|].
    set (s0 := {| tracker := new_tracker (Z.of_nat (length queue));
                  world := w1 |}).
    assert (Hz : total (tracker s0) <> 0).
    { apply Z.eqb_neq, (Hlen Hne). }
    destruct (all_complete_steps queue s0 [] (run_queue queue s0)
                (run_queue_steps queue s0) Hz Hall)
      as (Hw & Htot & Hc & Hf & Hff & Hs & _).
    exists (tracker (run_queue queue s0)). simpl in *.
    rewrite Hw. repeat split; try done; lia.
Qed.

(** *** The queue *)

Lemma fold_left_flat_map {A B C} (f : A -> C -> A) (g : B -> list C) l a :
  fold_left f (flat_map g l) a
  = fold_left (fun a x => fold_left f (g x) a) l a.
Proof.
  revert a. induction l as [|x l IH]; intros a; simpl; [done|].
  by rewrite fold_left_app, IH.
Qed.

Lemma fold_left_map_list {A B C} (f : A -> C -> A) (g : B -> C) l a :
  fold_left f (map g l) a = fold_left (fun a x => f a (g x)) l a.
Proof. revert a. induction l as [|x l IH]; intros a; simpl; [done|apply IH]. Qed.

Lemma length_task_keys symbols intervals dates :
  length (task_keys symbols intervals dates)
  = (length symbols * length intervals * length dates)%nat.
Proof.
  unfold task_keys. induction symbols as [|s symbols IH]; simpl; [done|].
  rewrite length_app, IH.
  assert (length (flat_map (fun i => map (fun d => (s, i, d)) dates) intervals)
          = (length intervals * length dates)%nat) as ->; [|lia].
  clear IH. induction intervals as [|i intervals IHi]; simpl; [done|].
  rewrite length_app, length_map, IHi. lia.
Qed.

Section Queue.

Variable trading_type : string.
Variables start_date end_date : Date.
Variable folder : option string.
Variable checksum : Z.
Variable date_range : option string.

Local Abbreviation task_of :=
  (task_of trading_type start_date end_date folder checksum date_range).

Lemma key_of_task_of k : key_of (task_of k) = k.
Proof. by destruct k as [[s i] d]. Qed.

Lemma queue_step_key k q seen :
  queue_step trading_type k.1.1 k.1.2 start_date end_date folder checksum
    date_range (q, seen) k.2
  = if decide (key_id k ∈ seen) then (q, seen)
    else (q ++ [task_of k], {[key_id k]} ∪ seen).
Proof. reflexivity. Qed.

(** The three loops are one pass over the keys. *)
Lemma build_download_queue_scan symbols intervals dates :
  build_download_queue trading_type symbols intervals dates start_date
    end_date folder checksum date_range
  = map task_of (scan ∅ (task_keys symbols intervals dates)).
Proof.
  unfold build_download_queue.
  transitivity
    (fold_left
       (fun acc k => queue_step trading_type k.1.1 k.1.2 start_date end_date
                       folder checksum date_range acc k.2)
       (task_keys symbols intervals dates)
       (([] : list download_info), (∅ : gset string))).1.
  { unfold task_keys. rewrite fold_left_flat_map. f_equal.
    generalize (([] : list download_info), (∅ : gset string)).
    induction symbols as [|s symbols IH]; intros acc; simpl; [done|].
    rewrite <- IH. f_equal. rewrite fold_left_flat_map.
    clear IH. revert acc.
    induction intervals as [|i intervals IHi]; intros acc; simpl; [done|].
    rewrite <- IHi. f_equal. by rewrite fold_left_map_list. }
  generalize (task_keys symbols intervals dates). intros l.
  change (map task_of (scan ∅ l)) with ([] ++ map task_of (scan ∅ l)).
  generalize (∅ : gset string) ([] : list download_info).
  induction l as [|k l IH]; intros seen q.
  - simpl. by rewrite app_nil_r.
  - cbn [fold_left scan]. rewrite queue_step_key.
    destruct (decide (key_id k ∈ seen)); [apply IH|].
    rewrite IH. simpl. by rewrite <- app_assoc.
Qed.

End Queue.




(** What a pass appends is new to [seen] and comes from the list. *)
Lemma scan_fresh seen l k :
  k ∈ scan seen l -> (key_id k ∉ seen) /\ (k ∈ l).
Proof.
  revert seen. induction l as [|x l IH]; intros seen; simpl.
  { by intros ?%elem_of_nil. }
  destruct (decide (key_id x ∈ seen)) as [Hx|Hx].
  - intros [Hk Hl]%IH. split; [done|by right].
  - intros [->|[Hk Hl]%IH]%elem_of_cons.
    + split; [done|by left].
    + split; [|by right]. intros Hs. apply Hk, elem_of_union. by right.
Qed.




(** Where no two keys of the list share an identifier, every key of the
    list is appended or was seen before. *)
Lemma scan_complete seen l k :
  (forall k1 k2, k1 ∈ l -> k2 ∈ l -> key_id k1 = key_id k2 -> k1 = k2) ->
  k ∈ l -> key_id k ∈ seen \/ k ∈ scan seen l.
Proof.
  revert seen. induction l as [|x l IH]; intros seen Hinj; simpl.
  { by intros ?%elem_of_nil. }
  assert (Hinj' : forall k1 k2, k1 ∈ l -> k2 ∈ l ->
                                key_id k1 = key_id k2 -> k1 = k2).
  { intros k1 k2 H1 H2. apply Hinj; by right. }
  destruct (decide (key_id x ∈ seen)) as [Hx|Hx].
  - intros [->|Hk]%elem_of_cons; [by left|]. by apply IH.
  - intros [->|Hk]%elem_of_cons; [right; by left|].
    destruct (IH ({[key_id x]} ∪ seen) Hinj' Hk) as [Hs|Hs].
    + apply elem_of_union in Hs as [Hs%elem_of_singleton|Hs]; [|by left].
      assert (k = x) as -> by (apply Hinj; [by right|by left|done]).
      right. by left.
    + right. by right.
Qed.



(** Where no two keys of the parameter space share an identifier, every
    key has its task in the queue. *)
Lemma queue_is_complete trading_type symbols intervals dates
    start_date end_date folder checksum date_range k :
  let keys := task_keys symbols intervals dates in
  (forall k1 k2, k1 ∈ keys -> k2 ∈ keys -> key_id k1 = key_id k2 -> k1 = k2) ->
  k ∈ keys ->
  k ∈ map key_of
        (build_download_queue trading_type symbols intervals dates
           start_date end_date folder checksum date_range).
Proof.
  intros keys Hinj Hk. rewrite build_download_queue_scan.
  rewrite map_map. erewrite map_ext; [rewrite map_id|].
  - destruct (scan_complete ∅ keys k Hinj Hk) as [Hs|Hs]; [set_solver|done].
  - intros x. apply key_of_task_of.
Qed.



End Facts.

Example sample_full_path :
  @full_path (sample_utility []) (sample_task "2024-01-03" 1) sample_world
  = "/data/data/spot/daily/klines/BTCUSDT/1d/BTCUSDT-1d-2024-01-03.zip".
Proof. reflexivity. Qed.

Example sample_dates :
  sample_convert_to_date_object "2024-02-29"
  = Ret {| year := 2024; month := 2; day := 29 |}
  /\ sample_convert_to_date_object "2023-02-29" = Exc "ValueError"
  /\ sample_convert_to_date_object "today" = Exc "ValueError".
Proof. repeat split; reflexivity. Qed.

(** *** The claims on the sample setting *)

(** Witness of C8: the first of January lies before the range; its data
    file is there and the tracker stays untouched. *)
Lemma out_of_range_is_silent_witness :
  sample_worker [] (sample_task "2024-01-01" 1) (sample_state 1 stored_world)
  = (sample_state 1 stored_world, Ret true).
Proof.
  apply (@out_of_range_is_silent (sample_utility []) _ _ (jan 1));
    reflexivity.
Defined.

(** Witness of C5: the thirteenth month raises in the conversion and leaves
    the worker; on the third of January the transfer raises for every name
    and the worker returns. *)
Lemma worker_catches_failures_witness :
  sample_worker [] (sample_task "2024-13-01" 0) (sample_state 1 sample_world)
  = (sample_state 1 sample_world, Exc "ValueError")
  /\ exists s' b,
       sample_worker [] (sample_task "2024-01-03" 0)
         (sample_state 1 sample_world) = (s', Ret b).
Proof.
  split.
  - apply (proj1 (@worker_catches_failures (sample_utility [])
                    (sample_task "2024-13-01" 0)
                    (sample_state 1 sample_world))).
    reflexivity.
  - destruct (proj2 (@worker_catches_failures (sample_utility [])
                       (sample_task "2024-01-03" 0)
                       (sample_state 1 sample_world)) (jan 3))
      as (s' & b & Hrun & _).
    + reflexivity.
    + simpl. lia.
    + exists s', b. exact Hrun.
Defined.

(** C5 as stated fails on a task whose day string is no date.  With the
    stand-in parser the thirteenth month raises [ValueError]; the conversion
    runs before the [try] block, so the exception leaves the worker. *)
Lemma malformed_date_escapes_worker :
  ~ (exists s' b,
       sample_worker [] (sample_task "2024-13-01" 0)
         (sample_state 1 sample_world) = (s', Ret b)).
Proof.
  intros (s' & b & Hrun). vm_compute in Hrun. discriminate.
Qed.

(** C7 as stated fails where the remote holds the data file and not its
    sidecar: the checksum flag is set, the data transfer returns, the sidecar
    transfer raises, and the worker returns false with the task counted as
    failed. *)
Lemma checksum_failure_is_not_completed :
  let u := sample_utility zip_only in
  let info := sample_task "2024-01-03" 1 in
  let path := "data/spot/daily/klines/BTCUSDT/1d/" in
  let w1 := logged sample_world
              (@download_file u path "BTCUSDT-1d-2024-01-03.zip" None
                 (Some "/data") sample_world).1
              path "BTCUSDT-1d-2024-01-03.zip" in
  ~ (checksum info = 1 ->
     (@download_file u path "BTCUSDT-1d-2024-01-03.zip" None (Some "/data")
        sample_world).2 = Ret tt ->
     (@download_file u path "BTCUSDT-1d-2024-01-03.zip.CHECKSUM" None
        (Some "/data") w1).2 = Exc "HTTPError" ->
     exists s',
       sample_worker zip_only info (sample_state 1 sample_world)
       = (s', Ret true)
       /\ completed (tracker s') = 1).
Proof.
  intros u info path w1 Hclaim.
  destruct Hclaim as (s' & Hrun & _); [reflexivity..|].
  vm_compute in Hrun. discriminate.
Qed.

(** Witness of C7, on the same input, and on a remote that holds the
    sidecar too. *)
Lemma checksum_fetch_decides_task_witness :
  (exists w',
     sample_worker zip_only (sample_task "2024-01-03" 1)
       (sample_state 1 sample_world)
     = ({| tracker := add_failed (add_failed_file "btcusdt-1d-2024-01-03"
                                    (new_tracker 1));
           world := w' |}, Ret false))
  /\ (exists w',
       sample_worker zip_and_sidecar (sample_task "2024-01-03" 1)
         (sample_state 1 sample_world)
       = ({| tracker := add_completed (new_tracker 1); world := w' |},
          Ret true)).
Proof.
  split; eexists.
  - eapply (@checksum_fetch_decides_task (sample_utility zip_only)
              (sample_task "2024-01-03" 1) (sample_state 1 sample_world)
              (jan 3) _ _ (Exc "HTTPError")); try reflexivity.
    simpl. lia.
  - eapply (@checksum_fetch_decides_task (sample_utility zip_and_sidecar)
              (sample_task "2024-01-03" 1) (sample_state 1 sample_world)
              (jan 3) _ _ (Ret tt)); try reflexivity.
    simpl. lia.
Defined.

(** C10 as stated fails on a task outside its range: the data file of the
    first of January is there with 1024 bytes and the checksum flag is set,
    and the worker returns true without marking the task skipped. *)
Lemma out_of_range_task_is_not_skipped :
  ~ (checksum (sample_task "2024-01-01" 1) = 1 ->
     file_complete stored_world
       (@full_path (sample_utility []) (sample_task "2024-01-01" 1)
          stored_world)
     = true ->
     exists s',
       sample_worker [] (sample_task "2024-01-01" 1)
         (sample_state 1 stored_world) = (s', Ret true)
       /\ skipped (tracker s') = 1).
Proof.
  intros Hclaim. destruct Hclaim as (s' & Hrun & Hskipped); [reflexivity..|].
  vm_compute in Hrun. injection Hrun as <-. discriminate.
Qed.

(** Witness of C10: the data file of the third of January is there, its
    sidecar is not. *)
Lemma complete_file_skips_sidecar_witness :
  sample_worker [] (sample_task "2024-01-03" 1) (sample_state 1 stored_world)
  = (with_tracker add_skipped (sample_state 1 stored_world), Ret true)
  /\ files stored_world
     !! @checksum_full_path (sample_utility []) (sample_task "2024-01-03" 1)
          stored_world = None.
Proof.
  split; [|reflexivity].
  apply (@complete_file_skips_sidecar (sample_utility []) _ _ (jan 3));
    try reflexivity.
  simpl. lia.
Defined.

(** C4 as stated fails on a queue with a task outside its range: when both
    tasks are resolved one file is counted of a total of two. *)
Lemma out_of_range_task_is_not_counted :
  ~ (forall pending s,
       rtc (@step (sample_utility zip_only))
           (two_days, sample_state 2 sample_world) (pending, s) ->
       pending = [] ->
       processed (tracker s) = total (tracker s)).
Proof.
  intros Hclaim.
  specialize (Hclaim [] _ (@run_queue_steps (sample_utility zip_only)
                             two_days (sample_state 2 sample_world))
                eq_refl).
  vm_compute in Hclaim. discriminate.
Qed.

(** Witness of C4, on the same queue. *)
Lemma tracker_bounded_witness :
  let s := @run_queue (sample_utility zip_only) two_days
             (sample_state 2 sample_world) in
  total (tracker s) = 2
  /\ processed (tracker s) <= total (tracker s)
  /\ processed (tracker s) = 1.
Proof.
  intros s.
  destruct (@tracker_bounded (sample_utility zip_only) two_days sample_world
              [] s)
    as (Htotal & Hle & Hdone & _).
  - apply run_queue_steps.
  - split; [exact Htotal|]. split; [exact Hle|]. exact (Hdone eq_refl).
Defined.

(** C6 as stated fails when a date of the batch lies outside the range: the
    second run skips the file of the second of January and reports one
    skipped file of a total of two. *)
Lemma second_run_skips_less_than_total :
  let run := sample_daily both_zips ["2024-01-01"; "2024-01-02"]
               (Some "2024-01-02") (Some "2024-01-02") 0 in
  let w1 := (run sample_world).1 in
  ~ (forall t, (run w1).2 = Ret (Some t) ->
               skipped t = total t /\ completed t = 0 /\ failed t = 0).
Proof.
  intros run w1 Hclaim.
  destruct (Hclaim {| completed := 0; failed := 0; skipped := 1; total := 2;
                      failed_files := [] |}) as [Hskipped _].
  - vm_compute. reflexivity.
  - discriminate.
Qed.

(** Witness of C6: both dates lie within the default range and the first
    run stores both files. *)
Lemma second_run_skips_all_witness :
  let run := sample_daily both_zips ["2024-01-01"; "2024-01-02"]
               None None 0 in
  let w1 := (run sample_world).1 in
  exists t, run w1 = (w1, Ret (Some t))
            /\ total t = 2 /\ skipped t = 2 /\ completed t = 0 /\ failed t = 0.
Proof.
  intros run w1.
  destruct (@second_run_skips_all (sample_utility both_zips) trie_order
              "spot" ["BTCUSDT"] 1 ["1d"] ["2024-01-01"; "2024-01-02"]
              None None (Some "/data") 0 4 w1
              (map (task_of "spot" {| year := 2017; month := 1; day := 1 |}
                      {| year := 2030; month := 1; day := 1 |}
                      (Some "/data") 0 None)
                 [("BTCUSDT", "1d", "2024-01-01");
                  ("BTCUSDT", "1d", "2024-01-02")]))
    as (_ & _ & Hrun).
  - vm_compute. reflexivity.
  - repeat constructor.
  - destruct Hrun as (t & Hrun & Htotal & Hskipped & Hcompleted & Hfailed & _);
      [discriminate|lia|].
    exists t. split; [exact Hrun|]. simpl in Htotal. split; [exact Htotal|].
    split; [rewrite Hskipped; exact Htotal|].
    split; [exact Hcompleted|exact Hfailed].
Defined.

(** Scenario 1 of the specification: one symbol, the intervals 1d and 1h of
    which 1d is valid for daily data, two dates: two tasks. *)
Example scenario_two_tasks :
  @daily_queue (sample_utility []) trie_order "spot" ["BTCUSDT"]
    ["1d"; "1h"]
    ["2024-01-01"; "2024-01-02"] None None None 0
  = Ret (map (task_of "spot" {| year := 2017; month := 1; day := 1 |}
                {| year := 2030; month := 1; day := 1 |} None 0 None)
           [("BTCUSDT", "1d", "2024-01-01"); ("BTCUSDT", "1d", "2024-01-02")]).
Proof. vm_compute. reflexivity. Qed.

(** Two keys with one identifier: the hyphen of the identifier can belong to
    the symbol or to the date, and the second key is dropped. *)
Example identifier_clash :
  map key_of
    (build_download_queue "spot" ["A"; "A-1d"] ["1d"] ["1d-x"; "x"]
       (jan 1) (jan 31) None 0 None)
  = [("A", "1d", "1d-x"); ("A", "1d", "x"); ("A-1d", "1d", "1d-x")].
Proof. vm_compute. reflexivity. Qed.




(** ** Further facts on download-kline.py *)

Section FurtherFacts.

Context `{Utility} `{SetOrder}.

(** *** The tracker *)

(** Each [mark_] method increments its counter first and reports progress
    after: the state it leaves has the counter one higher whether or not the
    report raises, and the report raises [ZeroDivisionError] exactly when the
    total is zero and the number of processed files is a multiple of ten. *)
Theorem marks_increment_before_reporting name s :
  let report := fun t =>
    if (total t =? 0) && (processed t mod 10 =? 0)
    then Exc "ZeroDivisionError" else Ret tt in
  mark_completed name s
  = (with_tracker add_completed s, report (add_completed (tracker s)))
  /\ mark_failed name s
     = (with_tracker add_failed s, report (add_failed (tracker s)))
  /\ mark_skipped name s
     = (with_tracker add_skipped s, report (add_skipped (tracker s))).
Proof.
  assert (Hreport : forall s0,
    _print_progress s0
    = (s0, if (total (tracker s0) =? 0) && (processed (tracker s0) mod 10 =? 0)
           then Exc "ZeroDivisionError" else Ret tt)).
  { intros s0. unfold _print_progress, bind, get_tracker, raise, ret.
    destruct (Z.eqb_spec (total (tracker s0)) 0) as [Hz|Hz]; simpl.
    - rewrite Hz.
      destruct (Z.eqb_spec (processed (tracker s0) mod 10) 0) as [Hm|Hm];
        simpl; [done|].
      destruct (Z.eqb_spec (processed (tracker s0)) 0) as [Hp|Hp]; [|done].
      rewrite Hp in Hm. done.
    - by destruct (_ || _). }
  intros report. subst report.
  unfold mark_completed, mark_failed, mark_skipped, bind, get_tracker,
    put_tracker.
  by rewrite !Hreport.
Qed.

(** *** The transfers of one worker *)

(** The calls of the transfer primitive one run of the worker adds to the
    log: none when the task lies outside its range or its data file is
    there, otherwise the data file first and then at most the sidecar, which
    is asked for only under the checksum flag. *)
Lemma worker_calls info s :
  total (tracker s) <> 0 ->
  let data :=
    (get_path (trading_type info) "klines" "daily" (symbol info)
       (interval info),
     zip_name (symbol info) (interval info) (date info)) in
  let sidecar :=
    (get_path (trading_type info) "klines" "daily" (symbol info)
       (interval info),
     checksum_name (symbol info) (interval info) (date info)) in
  exists calls,
    transfers (world (download_single_kline_file info s).1)
    = transfers (world s) ++ calls
    /\ (calls = [] \/ calls = [data]
        \/ (calls = [data; sidecar] /\ checksum info = 1))
    /\ (calls = [] <->
        task_in_range info = false
        \/ file_complete (world s) (full_path info (world s)) = true).
Proof.
  intros Ht data sidecar. unfold task_in_range.
  destruct (convert_to_date_object (date info)) as [d|e] eqn:Hd.
  2: { rewrite (worker_bad_date _ _ _ Hd). exists []. simpl.
       rewrite app_nil_r. split; [done|]. split; [by left|]. by split; [left|]. }
  destruct (in_range info d) eqn:Hr.
  2: { rewrite (worker_out_of_range _ _ _ Hd Hr). exists []. simpl.
       rewrite app_nil_r. split; [done|]. split; [by left|]. by split; [left|]. }
  rewrite (worker_in_range _ _ _ Hd Hr). unfold try_except.
  destruct (file_complete (world s) (full_path info (world s))) eqn:Hc.
  { rewrite (try_download_complete _ _ Ht Hc). exists []. simpl.
    rewrite app_nil_r. split; [done|]. split; [by left|]. by split; [right|]. }
  rewrite (try_download_transfer _ _ Ht Hc). cbv zeta.
  assert (Hno : forall l : list (string * string),
            data :: l = [] <-> true = false \/ false = true).
  { intros l. split; [done|by intros [|]]. }
  destruct (download_file _ _ _ _ (world s)) as [files1 [[]|e]];
    cbn [fst snd].
  2: { rewrite record_failure_ok by done. exists [data]. simpl.
       split; [done|]. split; [by right; left|apply Hno]. }
  destruct (Z.eqb_spec (checksum info) 1) as [Hk|Hk]; cbn [andb].
  2: { exists [data]. simpl. split; [done|].
       split; [by right; left|apply Hno]. }
  destruct (negb (file_complete _ _)).
  2: { exists [data]. simpl. split; [done|].
       split; [by right; left|apply Hno]. }
  exists [data; sidecar].
  destruct (download_file _ _ _ _ _) as [files2 [[]|e]]; cbn [fst snd].
  - simpl. rewrite <- app_assoc. split; [done|].
    split; [by right; right|apply Hno].
  - rewrite record_failure_ok by done. simpl. rewrite <- app_assoc.
    split; [done|]. split; [by right; right|apply Hno].
Qed.

(** One run of the worker calls the transfer primitive at most twice and
    only appends to the log: nothing for a task outside its range or with
    its data file there, otherwise the data file first and then at most the
    sidecar, and the sidecar only under the checksum flag. *)
Theorem worker_transfers_at_most_twice info s :
  total (tracker s) <> 0 ->
  let data :=
    (get_path (trading_type info) "klines" "daily" (symbol info)
       (interval info),
     zip_name (symbol info) (interval info) (date info)) in
  let sidecar :=
    (get_path (trading_type info) "klines" "daily" (symbol info)
       (interval info),
     checksum_name (symbol info) (interval info) (date info)) in
  exists calls,
    transfers (world (download_single_kline_file info s).1)
    = transfers (world s) ++ calls
    /\ (calls = [] \/ calls = [data]
        \/ (calls = [data; sidecar] /\ checksum info = 1))
    /\ (calls = [] <->
        task_in_range info = false
        \/ file_complete (world s) (full_path info (world s)) = true).
Proof. intros Ht. by apply worker_calls. Qed.

(** A data file that is there with a size of zero does not count as
    complete: a task within its range is not skipped, and the transfer
    primitive is called for the data file. *)
Theorem empty_file_is_transferred_again info s current_date :
  convert_to_date_object (date info) = Ret current_date ->
  in_range info current_date = true ->
  total (tracker s) <> 0 ->
  files (world s) !! full_path info (world s) = Some 0 ->
  let s' := (download_single_kline_file info s).1 in
  skipped (tracker s') = skipped (tracker s)
  /\ exists rest,
       transfers (world s')
       = transfers (world s)
         ++ (get_path (trading_type info) "klines" "daily" (symbol info)
               (interval info),
             zip_name (symbol info) (interval info) (date info)) :: rest.
Proof.
  intros Hd Hr Ht Hsize s'. subst s'.
  assert (Hc : file_complete (world s) (full_path info (world s)) = false).
  { unfold file_complete. by rewrite Hsize. }
  split.
  - pose proof (worker_resolved info s Ht) as Hres.
    destruct (download_single_kline_file info s) as [s' r].
    inversion Hres; subst; simpl; try done. congruence.
  - destruct (worker_calls info s Ht) as (calls & Hlog & Hshape & Hnone).
    rewrite Hlog.
    destruct Hshape as [->|[->|[-> _]]]; [|by eexists..].
    destruct (proj1 Hnone eq_refl) as [Hout|Hdone]; [|congruence].
    unfold task_in_range in Hout. rewrite Hd in Hout. congruence.
Qed.

(** The worker does not look at what a transfer left behind.  When the data
    transfer returns, and no sidecar is asked for or the sidecar is there,
    the task is marked completed with that one call of the primitive,
    whatever the files are afterwards; when the data file is still missing
    or empty, a second run of the worker on the state it left calls the
    primitive for it again. *)
Theorem transfer_result_is_not_checked info s current_date files1 :
  let path := get_path (trading_type info) "klines" "daily" (symbol info)
                (interval info) in
  let file_name := zip_name (symbol info) (interval info) (date info) in
  let w1 := logged (world s) files1 path file_name in
  let s1 := {| tracker := add_completed (tracker s); world := w1 |} in
  convert_to_date_object (date info) = Ret current_date ->
  in_range info current_date = true ->
  total (tracker s) <> 0 ->
  file_complete (world s) (full_path info (world s)) = false ->
  download_file path file_name (date_range info) (folder info) (world s)
  = (files1, Ret tt) ->
  checksum info <> 1
  \/ file_complete w1 (checksum_full_path info w1) = true ->
  download_single_kline_file info s = (s1, Ret true)
  /\ (file_complete w1 (full_path info w1) = false ->
      exists rest,
        transfers (world (download_single_kline_file info s1).1)
        = transfers w1 ++ (path, file_name) :: rest).
Proof.
  intros path file_name w1 s1 Hd Hr Ht Hc H1 Hside. split.
  - rewrite (worker_in_range _ _ _ Hd Hr). unfold try_except.
    rewrite (try_download_transfer _ _ Ht Hc). cbv zeta.
    fold path file_name. rewrite H1. cbn [fst snd]. fold w1.
    assert ((checksum info =? 1)
            && negb (file_complete w1 (checksum_full_path info w1)) = false)
      as ->; [|done].
    destruct Hside as [Hk| ->]; [|apply andb_false_r].
    by destruct (Z.eqb_spec (checksum info) 1).
  - intros Hc1.
    assert (Ht1 : total (tracker s1) <> 0) by done.
    destruct (worker_calls info s1 Ht1) as (calls & Hlog & Hshape & Hnone).
    rewrite Hlog. change (world s1) with w1.
    destruct Hshape as [->|[->|[-> _]]]; [|by eexists..].
    destruct (proj1 Hnone eq_refl) as [Hout|Hdone].
    + unfold task_in_range in Hout. rewrite Hd in Hout. congruence.
    + change (world s1) with w1 in Hdone. congruence.
Qed.

(** *** The batch as a whole *)

(** The tasks still pending come from the queue. *)
Lemma pending_from_queue queue s0 c :
  rtc step (queue, s0) c -> forall info, info ∈ c.1 -> info ∈ queue.
Proof.
  revert c.
  apply (rtc_ind_r (fun c => forall info, info ∈ c.1 -> info ∈ queue)
           (queue, s0)); [done|].
  intros c c' _ Hstep IH info. destruct Hstep as [before x after s1].
  simpl in *. intros Hin. apply IH.
  apply elem_of_app in Hin as [Hin|Hin]; apply elem_of_app;
    [by left|right; by right].
Qed.

(** The tracker of a batch has a total other than zero while a task is
    pending. *)
Lemma pending_total queue w before info after s :
  rtc step (queue, {| tracker := new_tracker (Z.of_nat (length queue));
                      world := w |}) (before ++ info :: after, s) ->
  total (tracker s) <> 0.
Proof.
  intros (Htot & Hc & Hf & Hs & _ & Hbound & _)%reachable_inv.
  unfold processed in Hbound. rewrite length_app in Hbound.
  simpl in Hbound. lia.
Qed.

(** Between the runs of the workers every entry of the failed-items list
    is the identifier of a queued task that lies within its range. *)
Lemma failed_entries_queued queue w c :
  rtc step (queue, {| tracker := new_tracker (Z.of_nat (length queue));
                      world := w |}) c ->
  Forall (fun name =>
            exists info,
              info ∈ queue /\ task_in_range info = true
              /\ task_id info = name)
         (failed_files (tracker c.2)).
Proof.
  revert c. apply rtc_ind_r.
  { simpl. constructor. }
  intros c c' Hrun Hstep IH. destruct Hstep as [before info after s1].
  simpl in *.
  pose proof (pending_total _ _ _ _ _ _ Hrun) as Ht.
  assert (Hq : info ∈ queue).
  { apply (pending_from_queue _ _ _ Hrun). simpl.
    apply elem_of_app. right. by left. }
  destruct (worker_resolved info s1 Ht) as [e He|d Hd Hr|Hin Hfile|w' Hin Hfile
                                            |w' Hin Hfile]; simpl; try done.
  apply Forall_app. split; [done|].
  apply Forall_cons. split; [by exists info|apply Forall_nil_2].
Qed.

(** Once every task of a batch is resolved, in whatever order, the
    failed-items list has as many entries as the failed counter says, at
    most as many as there are queued tasks within their range, and each
    entry is the identifier of a queued task that lies within its range.
    While workers run the list can be ahead of the counter, since a worker
    appends to it before it takes the lock to count. *)
Theorem failed_files_name_queued_tasks queue w s :
  rtc step (queue, {| tracker := new_tracker (Z.of_nat (length queue));
                      world := w |}) ([], s) ->
  Z.of_nat (length (failed_files (tracker s))) = failed (tracker s)
  /\ failed (tracker s) <= in_range_count queue
  /\ Forall (fun name =>
               exists info,
                 info ∈ queue /\ task_in_range info = true
                 /\ task_id info = name)
            (failed_files (tracker s)).
Proof.
  intros Hrun.
  destruct (reachable_inv _ _ _ _ Hrun)
    as (_ & Hc & _ & Hs & Hcount & _ & Hlen).
  split; [done|]. split.
  - unfold processed in Hcount. unfold in_range_count in Hcount at 1.
    simpl in Hcount. lia.
  - apply (failed_entries_queued queue w ([], s) Hrun).
Qed.


(** *** The queue of the daily download *)

(** The intervals a download keeps are those asked for that are daily
    intervals, in whatever order it goes through them. *)
Lemma elem_of_valid_intervals intervals i :
  i ∈ valid_intervals intervals <-> i ∈ intervals /\ i ∈ DAILY_INTERVALS.
Proof.
  unfold valid_intervals. rewrite list_of_set_elements.
  by rewrite elem_of_elements, elem_of_intersection, !elem_of_list_to_set.
Qed.

Lemma elem_of_task_keys symbols intervals dates k :
  k ∈ task_keys symbols intervals dates
  <-> k.1.1 ∈ symbols /\ k.1.2 ∈ intervals /\ k.2 ∈ dates.
Proof.
  unfold task_keys. rewrite !list_elem_of_In, in_flat_map. split.
  - intros (s & Hs & (i & Hi & (d & <- & Hd)%in_map_iff)%in_flat_map).
    done.
  - destruct k as [[s i] d]. simpl.
    intros (Hs & Hi & Hd). exists s. split; [done|].
    apply in_flat_map. exists i. split; [done|].
    apply in_map_iff. by exists d.
Qed.

(** A pass over keys with distinct identifiers, none of them seen before,
    appends them all. *)
Lemma scan_all seen l :
  NoDup (map key_id l) ->
  (forall k, k ∈ l -> key_id k ∉ seen) ->
  scan seen l = l.
Proof.
  revert seen. induction l as [|x l IH]; intros seen Hnd Hseen; [done|].
  cbn [scan]. apply NoDup_cons in Hnd as [Hx Hnd].
  rewrite decide_False by (apply Hseen; by left).
  f_equal. apply IH; [done|]. intros k Hk.
  rewrite elem_of_union, elem_of_singleton. intros [Hid|Hs].
  - apply Hx. rewrite <- Hid. apply list_elem_of_fmap. by exists k.
  - by apply (Hseen k); [right|].
Qed.

(** The first key of a pass that starts with nothing seen is appended. *)
Lemma scan_empty l : scan ∅ l = [] <-> l = [].
Proof.
  destruct l as [|k l]; [done|]. cbn [scan].
  rewrite decide_False by set_solver. done.
Qed.

(** Where no two keys of the parameter space share an identifier, the queue
    is the whole parameter space in the order of the three loops: one task
    for every symbol, interval and date, with the arguments of the call in
    its other fields. *)
Theorem queue_is_whole_space ttype symbols intervals dates start stop dir
    flag range :
  NoDup (map key_id (task_keys symbols intervals dates)) ->
  build_download_queue ttype symbols intervals dates start stop dir flag range
  = map (task_of ttype start stop dir flag range)
      (task_keys symbols intervals dates)
  /\ length (build_download_queue ttype symbols intervals dates start stop
               dir flag range)
     = (length symbols * length intervals * length dates)%nat.
Proof.
  intros Hnd. rewrite build_download_queue_scan.
  rewrite scan_all; [|done|set_solver].
  split; [done|]. by rewrite length_map, length_task_keys.
Qed.

(** Every task the daily download queues carries a symbol and a date of the
    arguments and an interval that is both asked for and a daily interval;
    its range bounds are the converted arguments, or the defaults where an
    argument is missing or empty, and it carries the range text exactly when
    both bounds were given. *)
Theorem daily_queue_members ttype symbols intervals dates first last dir
    flag queue info :
  daily_queue ttype symbols intervals dates first last dir flag = Ret queue ->
  info ∈ queue ->
  symbol info ∈ symbols
  /\ interval info ∈ intervals /\ interval info ∈ DAILY_INTERVALS
  /\ date info ∈ dates
  /\ trading_type info = ttype /\ folder info = dir /\ checksum info = flag
  /\ date_or_default first START_DATE = Ret (start_date info)
  /\ date_or_default last END_DATE = Ret (end_date info)
  /\ (date_range info = None <-> absent first = true \/ absent last = true).
Proof.
  unfold daily_queue.
  destruct (date_or_default first START_DATE) as [start|] eqn:Hfirst; [|done].
  destruct (date_or_default last END_DATE) as [stop|] eqn:Hlast; [|done].
  intros [= <-]. rewrite build_download_queue_scan.
  intros (k & -> & Hk)%list_elem_of_fmap. simpl.
  apply scan_fresh in Hk as [_ Hk].
  apply elem_of_task_keys in Hk as (Hs & Hi & Hd).
  apply elem_of_valid_intervals in Hi as [Hi1 Hi2].
  repeat split; try done.
  - destruct (absent first), (absent last); simpl; auto; done.
  - destruct (absent first), (absent last); simpl; try done;
      by intros [|].
Qed.

(** With range bounds that are missing or convert, the daily download comes
    back with nothing to do exactly when there is no symbol, no date, or no
    interval asked for that is a daily interval; the surroundings are then
    as they were and the transfer primitive has not been called. *)
Theorem nothing_to_download ttype symbols num_symbols intervals dates first
    last dir flag max_workers w start stop :
  date_or_default first START_DATE = Ret start ->
  date_or_default last END_DATE = Ret stop ->
  let run := download_daily_klines ttype symbols num_symbols intervals dates
               first last dir flag max_workers w in
  (run.2 = Ret None
   <-> symbols = [] \/ dates = []
       \/ Forall (fun i => i ∉ DAILY_INTERVALS) intervals)
  /\ (run.2 = Ret None -> run.1 = w).
Proof.
  intros Hfirst Hlast run. subst run.
  unfold download_daily_klines, daily_queue. rewrite Hfirst, Hlast.
  rewrite build_download_queue_scan.
  set (valid := valid_intervals intervals).
  assert (Hvalid : valid = []
                   <-> Forall (fun i => i ∉ DAILY_INTERVALS) intervals).
  { rewrite Forall_forall. split.
    - intros Hv i Hi Hd.
      assert (i ∈ valid) as Hin; [|rewrite Hv in Hin; by inversion Hin].
      by apply elem_of_valid_intervals.
    - intros Hall. apply elem_of_nil_inv. intros i.
      intros [Hi Hd]%elem_of_valid_intervals. by apply (Hall i). }
  clearbody valid. set (keys := task_keys symbols valid dates).
  assert (Hkeys : keys = []
                  <-> symbols = [] \/ dates = [] \/ valid = []).
  { subst keys. clear Hvalid. split.
    - intros Hk. destruct symbols as [|s ?]; [by left|].
      destruct dates as [|d ?]; [right; by left|].
      destruct valid as [|i ?]; [right; by right|].
      assert ((s, i, d) ∈ task_keys (s :: symbols) (i :: valid) (d :: dates))
        as Hin; [|rewrite Hk in Hin; by inversion Hin].
      apply elem_of_task_keys. simpl. repeat split; by left.
    - intros Hcase. apply elem_of_nil_inv. intros k.
      intros (Hs & Hi & Hd)%elem_of_task_keys.
      destruct Hcase as [->|[->| Hv]]; [by inversion Hs|by inversion Hd|].
      rewrite Hv in Hi. by inversion Hi. }
  rewrite <- Hvalid, <- Hkeys, <- scan_empty. rewrite length_map.
  destruct (scan ∅ keys) as [|k l]; simpl.
  { done. }
  destruct (Z.eqb_spec (Z.pos (Pos.of_succ_nat (length l))) 0); [lia|].
  destruct (max_workers <=? 0); simpl; split; done.
Qed.

(** *** The monthly download *)

Lemma extends_log_weaken calls (ok ok' : Prop) m :
  (ok' -> ok) -> extends_log calls ok m -> extends_log calls ok' m.
Proof.
  intros Himp Hm s.
  destruct (Hm s) as (Ht & Hcwd & made & Hlog & Hpre & Hret & Hok).
  split; [done|]. split; [done|]. exists made.
  split; [done|]. split; [done|]. split; [done|].
  intros Hok'. apply Hok, Himp, Hok'.
Qed.

Lemma ret_extends : extends_log [] True (ret tt).
Proof.
  intros s. unfold ret. simpl. split; [done|]. split; [done|].
  exists []. by rewrite app_nil_r.
Qed.

Lemma call_extends path name range dir :
  extends_log [(path, name)]
    (forall w, (download_file path name range dir w).2 = Ret tt)
    (call_download_file path name range dir).
Proof.
  intros s. rewrite call_download_file_run. cbv zeta. cbn [fst snd].
  split; [done|]. split; [done|]. exists [(path, name)].
  split; [done|]. split; [done|]. split; [done|]. intros Hok. apply Hok.
Qed.

(** One computation after another. *)
Lemma bind_extends calls1 calls2 (ok1 ok2 : Prop) m1 m2 :
  extends_log calls1 ok1 m1 -> extends_log calls2 ok2 m2 ->
  extends_log (calls1 ++ calls2) (ok1 /\ ok2) (do! m1 in m2).
Proof.
  intros H1 H2 s. unfold bind.
  destruct (H1 s) as (Ht1 & Hcwd1 & made1 & Hlog1 & Hpre1 & Hret1 & Hok1).
  destruct (m1 s) as [s1 [[]|e]]; simpl in *.
  - destruct (H2 s1) as (Ht2 & Hcwd2 & made2 & Hlog2 & Hpre2 & Hret2 & Hok2).
    rewrite (Hret1 eq_refl) in Hlog1.
    split; [congruence|]. split; [congruence|].
    exists (calls1 ++ made2). rewrite Hlog2, Hlog1, <- app_assoc.
    split; [done|]. split; [by apply prefix_app|].
    split; [by intros ->%Hret2|by intros [_ ?%Hok2]].
  - split; [done|]. split; [done|]. exists made1.
    split; [done|]. split; [by apply prefix_app_r|].
    split; [done|]. by intros [?%Hok1 _].
Qed.

(** A loop appends the calls of its turns, one turn after another. *)
Lemma for_each_extends {A} (l : list A) (calls : A -> list (string * string))
    (ok : A -> Prop) (body : A -> M unit) :
  (forall x, extends_log (calls x) (ok x) (body x)) ->
  extends_log (flat_map calls l) (Forall ok l) (for_each l body).
Proof.
  intros Hbody. induction l as [|x l IH]; cbn [for_each flat_map].
  - eapply extends_log_weaken; [|apply ret_extends]. done.
  - eapply extends_log_weaken; [|apply bind_extends; [apply Hbody|apply IH]].
    by intros [? ?]%Forall_cons.
Qed.

(** One month: the conversion, then the calls of [turn_calls]. *)
Lemma turn_extends ttype symbol interval start stop dir flag range year
    month :
  extends_log (turn_calls ttype symbol interval start stop flag year month)
    ((exists d, convert_to_date_object (month_start year month) = Ret d)
     /\ forall p n r f w, (download_file p n r f w).2 = Ret tt)
    (monthly_turn ttype symbol interval start stop dir flag range year month).
Proof.
  unfold monthly_turn, turn_calls, month_in_range.
  destruct (convert_to_date_object (month_start year month)) as [d|e].
  2: { intros s. unfold bind, lift. simpl. split; [done|]. split; [done|].
       exists []. rewrite app_nil_r. split; [done|]. split; [done|].
       split; [done|]. by intros [[? ?] _]. }
  assert (Hstart : forall (k : Date -> M unit),
            bind (lift (Ret d)) k = k d) by done.
  rewrite Hstart.
  destruct (date_le start d && date_le d stop).
  2: { eapply extends_log_weaken; [|apply ret_extends]. done. }
  change (?a :: (if flag =? 1 then [?b] else []))
    with ([a] ++ (if flag =? 1 then [b] else [])).
  eapply extends_log_weaken; [|apply bind_extends; [apply call_extends|]].
  { intros [_ Hnever]. split; [intros w; apply Hnever|]. exact Hnever. }
  destruct (flag =? 1).
  - eapply extends_log_weaken; [|apply call_extends].
    intros Hnever w. apply Hnever.
  - eapply extends_log_weaken; [|apply ret_extends]. done.
Qed.

(** The four loops append the calls of the parameter space. *)
Lemma monthly_extends ttype symbols intervals years months start stop dir
    flag range :
  extends_log
    (monthly_calls ttype symbols intervals years months start stop flag)
    ((forall p n r f w, (download_file p n r f w).2 = Ret tt)
     /\ (symbols <> [] -> intervals <> [] ->
         forall year month, year ∈ years -> month ∈ months ->
           exists d, convert_to_date_object (month_start year month) = Ret d))
    (monthly_loops ttype symbols intervals years months start stop dir flag
       range).
Proof.
  unfold monthly_calls, monthly_loops.
  eapply extends_log_weaken; [|apply for_each_extends; intros symbol;
    apply for_each_extends; intros interval;
    apply for_each_extends; intros year;
    apply for_each_extends; intros month; apply turn_extends].
  intros [Hnever Hdates].
  apply Forall_forall. intros symbol Hs.
  apply Forall_forall. intros interval Hi.
  apply Forall_forall. intros year Hy.
  apply Forall_forall. intros month Hm.
  split; [|done]. apply Hdates; [by intros ->; inversion Hs
                                |by intros ->; inversion Hi|done|done].
Qed.

(** The monthly download only appends to the log of transfer calls, and
    what it appends is a beginning of the calls of its parameter space in
    the order of the four loops: for every symbol, every interval that is
    asked for and a daily interval, every year and every month whose first
    day lies within the range, the data file and, under the checksum flag,
    its sidecar.  The symbols, years and months come in the order of the
    arguments, the intervals in the order the download goes through their
    set, whichever that is.  When it returns it has made all of these
    calls; the first conversion or transfer that raises ends it. *)
Theorem monthly_run_log ttype symbols num_symbols intervals years months
    first last dir flag w start stop :
  date_or_default first START_DATE = Ret start ->
  date_or_default last END_DATE = Ret stop ->
  let run := download_monthly_klines ttype symbols num_symbols intervals
               years months first last dir flag w in
  let calls := monthly_calls ttype symbols (valid_intervals intervals) years
                 months start stop flag in
  cwd run.1 = cwd w
  /\ exists made,
       transfers run.1 = transfers w ++ made
       /\ made `prefix_of` calls
       /\ (run.2 = Ret tt -> made = calls).
Proof.
  intros Hfirst Hlast run calls. subst run calls.
  unfold download_monthly_klines, valid_intervals. rewrite Hfirst, Hlast.
  match goal with
  | |- context [monthly_loops ?a ?b ?c ?d ?e ?f ?g ?h ?i ?j ?s0] =>
      destruct (monthly_extends a b c d e f g h i j s0)
        as (_ & Hcwd & made & Hlog & Hpre & Hret & _);
      destruct (monthly_loops a b c d e f g h i j s0) as [s1 r]
  end.
  simpl in *. split; [done|]. by exists made.
Qed.

(** With a transfer primitive that never raises and months whose first day
    converts, the monthly download returns after all the calls of its
    parameter space, whatever files are there: a data file that is there is
    transferred again.  The calls come in the order of the four loops, with
    the intervals in the order the download goes through their set,
    whichever that is. *)
Theorem monthly_run_completes ttype symbols num_symbols intervals years
    months first last dir flag w start stop :
  date_or_default first START_DATE = Ret start ->
  date_or_default last END_DATE = Ret stop ->
  (forall p n r f w0, (download_file p n r f w0).2 = Ret tt) ->
  (forall year month, year ∈ years -> month ∈ months ->
     exists d, convert_to_date_object (month_start year month) = Ret d) ->
  let run := download_monthly_klines ttype symbols num_symbols intervals
               years months first last dir flag w in
  run.2 = Ret tt
  /\ transfers run.1
     = transfers w
       ++ monthly_calls ttype symbols (valid_intervals intervals) years
            months start stop flag.
Proof.
  intros Hfirst Hlast Hnever Hdates run. subst run.
  unfold download_monthly_klines, valid_intervals. rewrite Hfirst, Hlast.
  match goal with
  | |- context [monthly_loops ?a ?b ?c ?d ?e ?f ?g ?h ?i ?j ?s0] =>
      destruct (monthly_extends a b c d e f g h i j s0)
        as (_ & _ & made & Hlog & _ & Hret & Hok);
      destruct (monthly_loops a b c d e f g h i j s0) as [s1 r]
  end.
  simpl in *.
  assert (Hr : r = Ret tt) by (apply Hok; split; [done|by auto]).
  split; [done|]. by rewrite Hlog, (Hret Hr).
Qed.

Lemma elem_of_turn_calls ttype symbol interval start stop flag year month
    call :
  call ∈ turn_calls ttype symbol interval start stop flag year month ->
  month_in_range start stop year month = true
  /\ call.1 = get_path ttype "klines" "monthly" symbol interval
  /\ (call.2 = zip_name symbol interval (month_token year month)
      \/ (flag = 1
          /\ call.2 = checksum_name symbol interval (month_token year month))).
Proof.
  unfold turn_calls.
  destruct (month_in_range start stop year month); [|by inversion 1].
  intros [->|Hside]%elem_of_cons; [by auto|].
  destruct (Z.eqb_spec flag 1); [|by inversion Hside].
  apply list_elem_of_singleton in Hside as ->. by auto.
Qed.

(** Every call the monthly download makes asks for a file of a symbol, a
    year and a month of its arguments, under an interval that is asked for
    and is one of the daily intervals, for a month whose first day lies
    within the range; the file is the data file of the month or, under the
    checksum flag, its sidecar. *)
Theorem monthly_calls_come_from_arguments ttype symbols num_symbols
    intervals years months first last dir flag w start stop :
  date_or_default first START_DATE = Ret start ->
  date_or_default last END_DATE = Ret stop ->
  let run := download_monthly_klines ttype symbols num_symbols intervals
               years months first last dir flag w in
  exists made,
    transfers run.1 = transfers w ++ made
    /\ Forall (fun call =>
         exists symbol interval year month,
           symbol ∈ symbols
           /\ interval ∈ intervals /\ interval ∈ DAILY_INTERVALS
           /\ year ∈ years /\ month ∈ months
           /\ month_in_range start stop year month = true
           /\ call.1 = get_path ttype "klines" "monthly" symbol interval
           /\ (call.2 = zip_name symbol interval (month_token year month)
               \/ (flag = 1
                   /\ call.2 = checksum_name symbol interval
                                 (month_token year month))))
         made.
Proof.
  intros Hfirst Hlast run. subst run.
  unfold download_monthly_klines. rewrite Hfirst, Hlast.
  match goal with
  | |- context [monthly_loops ?a ?b ?c ?d ?e ?f ?g ?h ?i ?j ?s0] =>
      destruct (monthly_extends a b c d e f g h i j s0)
        as (_ & _ & made & Hlog & Hpre & _ & _);
      destruct (monthly_loops a b c d e f g h i j s0) as [s1 r]
  end.
  simpl in *. exists made. split; [done|].
  apply Forall_forall. intros call Hcall.
  destruct Hpre as [rest Hrest].
  assert (Hin : call ∈ made ++ rest) by (apply elem_of_app; by left).
  rewrite <- Hrest in Hin. unfold monthly_calls in Hin.
  apply list_elem_of_In, in_flat_map in Hin as (symbol & Hs & Hin).
  apply in_flat_map in Hin as (interval & Hi & Hin).
  apply in_flat_map in Hin as (year & Hy & Hin).
  apply in_flat_map in Hin as (month & Hm & Hin).
  apply list_elem_of_In in Hs, Hi, Hy, Hm, Hin.
  apply elem_of_valid_intervals in Hi as [Hi1 Hi2].
  apply elem_of_turn_calls in Hin as (Hr & Hpath & Hname).
  by exists symbol, interval, year, month.
Qed.

End FurtherFacts.

(** *** Samples of the further facts *)

(** A task with the checksum flag whose data file and sidecar are on the
    remote side: two calls. *)
Lemma worker_transfers_at_most_twice_witness :
  exists calls,
    transfers (world (sample_worker zip_and_sidecar
                        (sample_task "2024-01-03" 1)
                        (sample_state 1 sample_world)).1) = calls
    /\ (length calls <= 2)%nat.
Proof.
  pose proof (@worker_transfers_at_most_twice (sample_utility zip_and_sidecar)
                (sample_task "2024-01-03" 1) (sample_state 1 sample_world))
    as Hw.
  cbv zeta in Hw. destruct Hw as (calls & Hlog & Hshape & _).
  - discriminate.
  - exists calls. split; [exact Hlog|].
    destruct Hshape as [->|[->|[-> _]]]; simpl; lia.
Defined.

(** The data file of the third of January is there with no bytes in it:
    the task is not skipped and the file is asked for. *)
Lemma empty_file_is_transferred_again_witness :
  let s' := (sample_worker zip_only (sample_task "2024-01-03" 0)
               (sample_state 1 empty_file_world)).1 in
  skipped (tracker s') = 0
  /\ exists rest,
       transfers (world s')
       = ("data/spot/daily/klines/BTCUSDT/1d/", "BTCUSDT-1d-2024-01-03.zip")
         :: rest.
Proof.
  apply (@empty_file_is_transferred_again (sample_utility zip_only)
           (sample_task "2024-01-03" 0) (sample_state 1 empty_file_world)
           (jan 3)); try reflexivity.
  discriminate.
Defined.

(** A transfer that stores nothing: the task is marked completed, and the
    next run of the worker asks for the file again. *)
Lemma transfer_result_is_not_checked_witness :
  let s := sample_state 2 sample_world in
  let s1 := (@download_single_kline_file idle_utility
               (sample_task "2024-01-03" 0) s).1 in
  completed (tracker s1) = 1
  /\ files (world s1) = ∅
  /\ exists rest,
       transfers (world (@download_single_kline_file idle_utility
                           (sample_task "2024-01-03" 0) s1).1)
       = transfers (world s1)
         ++ ("data/spot/daily/klines/BTCUSDT/1d/",
             "BTCUSDT-1d-2024-01-03.zip") :: rest.
Proof.
  intros s s1.
  pose proof (@transfer_result_is_not_checked idle_utility
                (sample_task "2024-01-03" 0) s (jan 3) ∅) as Hw.
  cbv zeta in Hw. destruct Hw as [Hrun Hagain]; try reflexivity.
  - discriminate.
  - left. discriminate.
  - subst s1. rewrite Hrun. split; [reflexivity|]. split; [reflexivity|].
    apply Hagain. reflexivity.
Defined.

(** A batch of three tasks with nothing on the remote side: the two tasks
    within the range fail and are named in the failed-items list. *)
Lemma failed_files_name_queued_tasks_witness :
  let s := @run_queue (sample_utility []) three_days
             (sample_state 3 sample_world) in
  Z.of_nat (length (failed_files (tracker s))) = failed (tracker s)
  /\ failed_files (tracker s)
     = ["btcusdt-1d-2024-01-03"; "btcusdt-1d-2024-01-04"].
Proof.
  intros s.
  destruct (@failed_files_name_queued_tasks (sample_utility []) three_days
              sample_world s) as [Hlen _].
  - apply run_queue_steps.
  - split; [exact Hlen|reflexivity].
Defined.


(** Two symbols, one interval and two dates: four tasks. *)
Lemma queue_is_whole_space_witness :
  length (@build_download_queue "spot" ["BTCUSDT"; "ETHUSDT"] ["1d"]
            ["2024-01-01"; "2024-01-02"] (jan 1) (jan 31) None 0 None)
  = 4%nat.
Proof.
  apply (queue_is_whole_space "spot" ["BTCUSDT"; "ETHUSDT"] ["1d"]
           ["2024-01-01"; "2024-01-02"] (jan 1) (jan 31) None 0 None).
  apply (bool_decide_unpack _). vm_compute. reflexivity.
Defined.

(** The task queued for the interval 1d; the interval 1h is asked for but
    is not a daily interval of the sample setting. *)
Lemma daily_queue_members_witness :
  let info := task_of "spot" (jan 2) {| year := 2030; month := 1; day := 1 |}
                (Some "/data") 1 None ("BTCUSDT", "1d", "2024-01-03") in
  interval info ∈ ["1d"; "1h"]
  /\ @date_or_default (sample_utility []) (Some "2024-01-02")
       (@START_DATE (sample_utility [])) = Ret (start_date info)
  /\ date_range info = None.
Proof.
  intros info.
  destruct (@daily_queue_members (sample_utility []) reverse_order "spot"
              ["BTCUSDT"]
              ["1d"; "1h"] ["2024-01-03"] (Some "2024-01-02") None
              (Some "/data") 1 [info] info)
    as (_ & Hi & _ & _ & _ & _ & _ & Hstart & _ & Hrange).
  - vm_compute. reflexivity.
  - by left.
  - split; [exact Hi|]. split; [exact Hstart|]. apply Hrange. by right.
Defined.

(** No interval asked for is a daily interval: nothing to download. *)
Lemma nothing_to_download_witness :
  @download_daily_klines (sample_utility both_zips) reverse_order "spot"
    ["BTCUSDT"] 1 ["1h"; "4h"] ["2024-01-01"] None None (Some "/data") 0 4 sample_world
  = (sample_world, Ret None).
Proof.
  destruct (@nothing_to_download (sample_utility both_zips) reverse_order
              "spot" ["BTCUSDT"] 1 ["1h"; "4h"] ["2024-01-01"] None None
              (Some "/data") 0 4 sample_world
              {| year := 2017; month := 1; day := 1 |}
              {| year := 2030; month := 1; day := 1 |} eq_refl eq_refl)
    as [Hnone Hworld].
  assert (Hcase : ["BTCUSDT"] = [] \/ ["2024-01-01"] = []
                  \/ Forall (fun i => i ∉ @DAILY_INTERVALS
                                            (sample_utility both_zips))
                       ["1h"; "4h"]).
  { right. right.
    apply Forall_cons. split; [by intros ?%list_elem_of_singleton|].
    apply Forall_cons. split; [by intros ?%list_elem_of_singleton|].
    apply Forall_nil_2. }
  apply Hnone in Hcase. specialize (Hworld Hcase).
  destruct (download_daily_klines _ _ _ _ _ _ _ _ _ _ _) as [w r].
  simpl in *. by rewrite Hworld, Hcase.
Defined.

(** The months February and March 2024 with a range from the first of
    March, for the intervals 1h, 3d and 1d of which 1h and 1d are kept, gone
    through in the order 1h, 1d: the data file and the sidecar of March for
    each of them. *)
Lemma monthly_run_log_witness :
  let run := sample_monthly open_utility reverse_order [2; 3]
               (Some "2024-03-01") None 1 sample_world in
  cwd run.1 = "/home/user"
  /\ exists made,
       transfers run.1 = made
       /\ made `prefix_of`
            [("data/spot/monthly/klines/BTCUSDT/1h/",
              "BTCUSDT-1h-2024-03.zip");
             ("data/spot/monthly/klines/BTCUSDT/1h/",
              "BTCUSDT-1h-2024-03.zip.CHECKSUM");
             ("data/spot/monthly/klines/BTCUSDT/1d/",
              "BTCUSDT-1d-2024-03.zip");
             ("data/spot/monthly/klines/BTCUSDT/1d/",
              "BTCUSDT-1d-2024-03.zip.CHECKSUM")].
Proof.
  intros run.
  destruct (@monthly_run_log open_utility reverse_order "spot" ["BTCUSDT"] 1
              ["1h"; "3d"; "1d"] ["2024"] [2; 3] (Some "2024-03-01") None
              (Some "/data") 1 sample_world
              {| year := 2024; month := 3; day := 1 |}
              {| year := 2030; month := 1; day := 1 |} eq_refl eq_refl)
    as (Hcwd & made & Hlog & Hpre & _).
  split; [exact Hcwd|]. exists made. split; [exact Hlog|exact Hpre].
Defined.

(** The file of March 2024 for the interval 1d is there already: the
    monthly download asks for it again, before or after the file for the
    interval 1h as the order of the intervals has it. *)
Lemma monthly_run_completes_witness :
  let w := {| files :=
                {[ "/data/data/spot/monthly/klines/BTCUSDT/1d/BTCUSDT-1d-2024-03.zip"
                     := 1024 ]};
              cwd := "/home/user"; transfers := [] |} in
  let run := fun O => sample_monthly open_utility O [3] None None 0 w in
  (run trie_order).2 = Ret tt
  /\ transfers (run trie_order).1
     = [("data/spot/monthly/klines/BTCUSDT/1d/", "BTCUSDT-1d-2024-03.zip");
        ("data/spot/monthly/klines/BTCUSDT/1h/", "BTCUSDT-1h-2024-03.zip")]
  /\ transfers (run reverse_order).1
     = [("data/spot/monthly/klines/BTCUSDT/1h/", "BTCUSDT-1h-2024-03.zip");
        ("data/spot/monthly/klines/BTCUSDT/1d/", "BTCUSDT-1d-2024-03.zip")].
Proof.
  intros w run.
  assert (Hdates : forall year month, year ∈ ["2024"] -> month ∈ [3] ->
            exists d, sample_convert_to_date_object
                        (month_start year month) = Ret d).
  { intros year month ->%list_elem_of_singleton ->%list_elem_of_singleton.
    by eexists. }
  destruct (@monthly_run_completes open_utility trie_order "spot" ["BTCUSDT"]
              1 ["1h"; "3d"; "1d"] ["2024"] [3] None None (Some "/data") 0 w
              {| year := 2017; month := 1; day := 1 |}
              {| year := 2030; month := 1; day := 1 |} eq_refl eq_refl
              (fun _ _ _ _ _ => eq_refl) Hdates) as [Hret Hlog].
  destruct (@monthly_run_completes open_utility reverse_order "spot"
              ["BTCUSDT"] 1 ["1h"; "3d"; "1d"] ["2024"] [3] None None
              (Some "/data") 0 w
              {| year := 2017; month := 1; day := 1 |}
              {| year := 2030; month := 1; day := 1 |} eq_refl eq_refl
              (fun _ _ _ _ _ => eq_refl) Hdates) as [_ Hlog'].
  split; [exact Hret|]. split; [exact Hlog|exact Hlog'].
Defined.

(** With a remote side that has nothing the first call raises and is the
    only one; it asks for the file of a month of the arguments. *)
Lemma monthly_calls_come_from_arguments_witness :
  let run := sample_monthly (sample_utility []) trie_order [2; 3] None None 1
               sample_world in
  run.2 = Exc "HTTPError"
  /\ exists made, transfers run.1 = made /\ length made = 1%nat.
Proof.
  intros run. split; [reflexivity|].
  destruct (@monthly_calls_come_from_arguments (sample_utility [])
              trie_order "spot" ["BTCUSDT"] 1 ["1h"; "3d"; "1d"] ["2024"]
              [2; 3] None None (Some "/data") 1 sample_world
              {| year := 2017; month := 1; day := 1 |}
              {| year := 2030; month := 1; day := 1 |} eq_refl eq_refl)
    as (made & Hlog & _).
  exists made. split; [exact Hlog|].
  change (transfers run.1) with ([] ++ transfers run.1) in Hlog.
  apply app_inv_head in Hlog. by rewrite <- Hlog.
Defined.

End DownloadFacts.
